(** * run_busselton.py: the Busselton tsunami-inundation run script

    A shallow embedding of the script template
    [src/main/resources/org/auscope/portal/server/scriptbuilder/templates/run_busselton.py].

    The script is a Python 2 program (it uses the [print] statement) that
    sequences calls into the ANUGA library, into [VHIRL_conversions] and
    into an external [cloud] command.  It is modelled as a program in a
    small monad that threads the history of external interactions and
    propagates exceptions; the outside world (library, clock, subprocess,
    process environment) is a parameter of the run.

    Python floats are idealised as real numbers.  The template variables
    are taken to be substituted by values that need no escaping inside a
    Python literal. *)

From Stdlib Require Import Reals Lra Ascii DecimalString.
From stdpp Require Import gmap strings list fin_maps.

(** ** Python 2 numbers *)

(** The exceptions the script can meet. *)
Inductive exn : Type :=
| KeyError (key : string)
| ZeroDivisionError
| OSError (msg : string)
| LibraryError (msg : string).

(** A Python number is an [int] or a [float]. *)
Inductive pynum : Type :=
| PyInt (z : Z)
| PyFloat (r : R).

Definition to_float (a : pynum) : R :=
  match a with
  | PyInt z => IZR z
  | PyFloat r => r
  end.

(** [a * b]: an int when both are ints, a float otherwise. *)
Definition py_mul (a b : pynum) : pynum :=
  match a, b with
  | PyInt x, PyInt y => PyInt (x * y)
  | _, _ => PyFloat (to_float a * to_float b)
  end.

(** [a - b]. *)
Definition py_sub (a b : pynum) : pynum :=
  match a, b with
  | PyInt x, PyInt y => PyInt (x - y)
  | _, _ => PyFloat (to_float a - to_float b)
  end.

(** [-a]. *)
Definition py_neg (a : pynum) : pynum :=
  match a with
  | PyInt x => PyInt (- x)
  | PyFloat r => PyFloat (- r)
  end.

(** [a / b] without [from __future__ import division]: floor division on
    two ints, true division as soon as one operand is a float. *)
Definition py_div (a b : pynum) : exn + pynum :=
  match a, b with
  | PyInt x, PyInt y =>
      if decide (y = 0%Z) then inl ZeroDivisionError else inr (PyInt (x `div` y))
  | _, _ =>
      if Req_dec_T (to_float b) 0 then inl ZeroDivisionError
      else inr (PyFloat (to_float a / to_float b))
  end.

(** [np.sin], [np.exp] and [np.pi]. *)
Definition np_sin (a : pynum) : pynum := PyFloat (sin (to_float a)).
Definition np_exp (a : pynum) : pynum := PyFloat (exp (to_float a)).
Definition np_pi : pynum := PyFloat PI.

(** ** Strings *)

(** [str(n)] of an int. *)
Definition str (n : Z) : string := NilZero.string_of_int (Z.to_int n).

(** [s.replace("//", "/")]: the occurrences are replaced from left to
    right and do not overlap. *)
Fixpoint replace_slashes (s : string) : string :=
  match s with
  | String "/"%char (String "/"%char rest) =>
      String "/"%char (replace_slashes rest)
  | String c rest => String c (replace_slashes rest)
  | EmptyString => EmptyString
  end.

(** ** The tsunami wave (line 167)

    [the_wave = lambda t: [(20*np.sin(t*np.pi/(60*10)))*np.exp(-t/600), 0, 0]] *)
Definition the_wave (t : pynum) : exn + list pynum :=
  match py_div (py_mul t np_pi) (py_mul (PyInt 60) (PyInt 10)) with
  | inl e => inl e
  | inr phase =>
      match py_div (py_neg t) (PyInt 600) with
      | inl e => inl e
      | inr decay =>
          inr [py_mul (py_mul (PyInt 20) (np_sin phase)) (np_exp decay);
               PyInt 0; PyInt 0]
      end
  end.

(** ** External calls *)

(** The three kinds of boundary object the script builds. *)
Inductive boundary : Type :=
| Dirichlet_boundary (conserved_quantities : list pynum)
| Transmissive_stage_zero_momentum_boundary
| Time_boundary (function : pynum → exn + list pynum).

(** A value handed back by the outside world or printed.  [VFormat] is a
    [%]-formatted string that is kept symbolic. *)
Inductive pyval : Type :=
| VNone
| VNum (n : pynum)
| VStr (s : string)
| VObject (id : positive)
| VFormat (fmt : string) (args : list pynum).

(** The calls that leave the script, with their arguments.  All the
    methods are those of the one [domain] object. *)
Inductive call : Type :=
| time_time
| nc2asc (infile outfile : string) (zone : Z)
| asc2dem (name_in : string) (use_cache verbose : bool)
| dem2pts (name_in : string) (use_cache verbose : bool)
| create_domain_from_regions
    (bounding_polygon : list (Z * Z))
    (boundary_tags : gmap string (list Z))
    (maximum_triangle_area : pynum)
    (mesh_filename : string)
    (use_cache verbose : bool)
| len_domain
| get_extent
| statistics
| set_name (name : string)
| set_datadir (name : string)
| set_minimum_storable_height (minimum_storable_height : pynum)
| set_flow_algorithm (flag : string)
| set_quantity (name : string) (numeric : pynum)
| set_quantity_from_file
    (name filename : string) (use_cache verbose : bool) (alpha : pynum)
| get_boundary_tags
| new_boundary (b : boundary)
| set_boundary (boundary_map : gmap string boundary)
| evolve (yieldstep finaltime : pynum) (skip_initial_step : bool)
| next_yield
| timestepping_statistics
| boundary_statistics (tags : string)
| subprocess_call (args : list string).

(** What the script does that can be seen from outside: a call together
    with its outcome, or a [print]. *)
Inductive event : Type :=
| ECall (c : call) (r : exn + pyval)
| EPrint (items : list pyval).

(** The world outside the script.  Every answer may depend on all that
    happened before. *)
Record world : Type := World {
  environ : gmap string string;
  library : list event → call → exn + pyval;
  evolve_yields : list event → nat;
  subprocess : list event → list string → exn + Z;
  clock : list event → R
}.

(** ** The script monad: history passing and exception propagation *)

Definition M (A : Type) : Type :=
  world → list event → list event * (exn + A).

Definition ret {A} (a : A) : M A := λ _ h, (h, inr a).

Definition bind {A B} (m : M A) (f : A → M B) : M B :=
  λ w h,
    match m w h with
    | (h', inr a) => f a w h'
    | (h', inl e) => (h', inl e)
    end.

Notation "x <- m ;; k" := (bind m (λ x, k))
  (at level 100, m at next level, right associativity).
Notation "m ;;; k" := (bind m (λ _, k))
  (at level 100, right associativity).

(** A call into the library. *)
Definition ext (c : call) : M pyval :=
  λ w h, let r := library w h c in (h ++ [ECall c r], r).

(** [time.time()]. *)
Definition time : M R :=
  λ w h, let t := clock w h in
         (h ++ [ECall time_time (inr (VNum (PyFloat t)))], inr t).

(** [subprocess.call(args)]: the return code, or the exception raised
    when the command cannot be started. *)
Definition subprocess_run (args : list string) : M Z :=
  λ w h,
    match subprocess w h args with
    | inr code =>
        (h ++ [ECall (subprocess_call args) (inr (VNum (PyInt code)))], inr code)
    | inl e => (h ++ [ECall (subprocess_call args) (inl e)], inl e)
    end.

(** [os.environ[key]]. *)
Definition os_environ (key : string) : M string :=
  λ w h,
    match environ w !! key with
    | Some v => (h, inr v)
    | None => (h, inl (KeyError key))
    end.

(** The [print] statement. *)
Definition print (items : list pyval) : M unit :=
  λ _ h, (h ++ [EPrint items], inr tt).

(** [for t in gen: body], for a generator that yields [n] times. *)
Fixpoint for_yields (n : nat) (body : M unit) : M unit :=
  match n with
  | O => ret tt
  | S n' => (_ <- ext next_yield;; body;;; for_yields n' body)
  end.

(** [for t in domain.evolve(...): body].  The number of yields is the
    library's business. *)
Definition for_evolve (yieldstep finaltime : pynum) (skip_initial_step : bool)
    (body : M unit) : M unit :=
  _ <- ext (evolve yieldstep finaltime skip_initial_step);;
  λ w h, for_yields (evolve_yields w h) body w h.

(** ** The script *)

(** The template variables [${input_dataset}], [${name_stem}],
    [${base_scale}] and [${tide}]. *)
Record template : Type := Template {
  input_dataset : string;
  name_stem : string;
  base_scale : pynum;
  tide : pynum
}.

(** Lines 46-84: file names, run-time parameters and domain definitions. *)
Definition dataset (p : template) : string := input_dataset p.
Definition scenario_name (p : template) : string := name_stem p.
Definition meshname (p : template) : string := name_stem p +:+ ".msh".
Definition v_cache : bool := false.
Definition v_verbose : bool := true.
Definition scenario : string := "fixed_wave".

Definition busselton_extent : list (Z * Z) :=
  [(357325, 6270510); (344635, 6267810); (314645, 6268400);
   (286811, 6277911); (286174, 6308019); (293089, 6341152);
   (344595, 6456235); (389463, 6441867); (392955, 6320400);
   (379095, 6288910)]%Z.

Definition zone : Z := 50.
Definition default_res (p : template) : pynum := py_mul (PyInt 25) (base_scale p).
Definition v_tide (p : template) : pynum := tide p.

(** Lines 108-117: the tags of the ten segments of the bounding polygon. *)
Definition boundary_tags : gmap string (list Z) :=
  {[ "land_sse" := [0%Z]; "land_s" := [1%Z]; "bottom" := [2%Z];
     "ocean_wsw" := [3%Z]; "ocean_w" := [4%Z]; "ocean_wnw" := [5%Z];
     "top" := [6%Z]; "land_nne" := [7%Z]; "land_ese" := [8%Z];
     "land_se" := [9%Z] ]}.

(** Lines 94-100: NetCDF to ASC, ASC to DEM, DEM to PTS. *)
Definition convert_data (p : template) : M unit :=
  _ <- ext (nc2asc (dataset p) (name_stem p) zone);;
  _ <- ext (asc2dem (name_stem p +:+ ".asc") v_cache v_verbose);;
  _ <- ext (dem2pts (name_stem p +:+ ".dem") v_cache v_verbose);;
  ret tt.

(** Lines 107-126: the mesh and the domain, and some statistics. *)
Definition create_domain (p : template) : M unit :=
  _ <- ext (create_domain_from_regions busselton_extent boundary_tags
              (default_res p) (meshname p) v_cache v_verbose);;
  n <- ext len_domain;;
  print [VStr "Number of triangles = "; n];;;
  x <- ext get_extent;;
  print [VStr "The extent is "; x];;;
  s <- ext statistics;;
  print [s].

(** Lines 131-134: parameters of the computational domain. *)
Definition setup_domain : M unit :=
  _ <- ext (set_name ("busselton_" +:+ scenario));;
  _ <- ext (set_datadir ".");;
  _ <- ext (set_minimum_storable_height (PyFloat 0.01));;
  _ <- ext (set_flow_algorithm "tsunami");;
  ret tt.

(** Lines 141-150: initial conditions. *)
Definition initial_conditions (p : template) : M unit :=
  let tide := v_tide p in
  _ <- ext (set_quantity "stage" tide);;
  _ <- ext (set_quantity "friction" (PyFloat 0.0));;
  _ <- ext (set_quantity_from_file "elevation" (name_stem p +:+ ".pts")
              v_cache v_verbose (PyFloat 0.1));;
  ret tt.

(** Lines 161-168: the three boundary objects. *)
Definition Bd (p : template) : boundary :=
  Dirichlet_boundary [v_tide p; PyInt 0; PyInt 0].
Definition Bs : boundary := Transmissive_stage_zero_momentum_boundary.
Definition Bw : boundary := Time_boundary the_wave.

(** Lines 170-179: the boundary assigned to each tag. *)
Definition boundary_map : gmap string boundary :=
  {[ "land_sse" := Bs; "land_s" := Bs; "bottom" := Bs;
     "ocean_wsw" := Bw; "ocean_w" := Bw; "ocean_wnw" := Bw;
     "top" := Bs; "land_nne" := Bs; "land_ese" := Bs;
     "land_se" := Bs ]}.

(** Lines 158-179: boundary conditions. *)
Definition boundary_conditions (p : template) : M unit :=
  tags <- ext get_boundary_tags;;
  print [VStr "Available boundary tags"; tags];;;
  _ <- ext (new_boundary (Bd p));;
  _ <- ext (new_boundary Bs);;
  _ <- ext (new_boundary Bw);;
  _ <- ext (set_boundary boundary_map);;
  ret tt.

(** The body of both evolve loops. *)
Definition evolve_body : M unit :=
  s <- ext timestepping_statistics;;
  print [s];;;
  b <- ext (boundary_statistics "ocean_wnw");;
  print [b].

(** Lines 190-200: the two evolve loops. *)
Definition evolve_system : M unit :=
  for_evolve (py_mul (PyInt 2) (PyInt 60)) (PyInt 5000) false evolve_body;;;
  for_evolve (py_mul (PyInt 60) (PyFloat 0.5)) (PyInt 7000) true evolve_body.

(** Lines 208-213. *)
Definition cloudUpload (inFilePath cloudKey : string) : M unit :=
  cloudBucket <- os_environ "STORAGE_BUCKET";;
  cloudDir <- os_environ "STORAGE_BASE_KEY_PATH";;
  let queryPath :=
    replace_slashes ((((cloudBucket +:+ "/") +:+ cloudDir) +:+ "/") +:+ cloudKey) in
  retcode <- subprocess_run
               ["cloud"; "upload"; cloudKey; inFilePath; "--set-acl=public-read"];;
  print [VStr (((((("cloudUpload: " +:+ inFilePath) +:+ " to ") +:+ queryPath)
                   +:+ " returned ") +:+ str retcode))].

(** Lines 219-227: the eight uploads. *)
Definition upload_results (p : template) : M unit :=
  print [VStr "Uploading result files"];;;
  cloudUpload (input_dataset p) "raw_elevation";;;
  cloudUpload (name_stem p +:+ "_UTM.nc") (name_stem p +:+ "_UTM.nc");;;
  cloudUpload (name_stem p +:+ ".asc") (name_stem p +:+ ".asc");;;
  cloudUpload (name_stem p +:+ ".prj") (name_stem p +:+ ".prj");;;
  cloudUpload (name_stem p +:+ ".dem") (name_stem p +:+ ".dem");;;
  cloudUpload (name_stem p +:+ ".pts") (name_stem p +:+ ".pts");;;
  cloudUpload (name_stem p +:+ ".msh") (name_stem p +:+ ".msh");;;
  cloudUpload (name_stem p +:+ "_fixed_wave.sww") (name_stem p +:+ "_fixed_wave.sww").

(** Lines 229-240: the closing messages. *)
Definition timer_stats (jobstart bounaryStartTime evolveStartTime uploadStartTime : R)
    : M unit :=
  print [VStr "If you wish to view your output - please look at anuga-viewer here: http://sourceforge.net/projects/anuga/files/"];;;
  print [VStr "
---------------
| Timer Stats |
---------------
"];;;
  print [VFormat "Convert/Fit   : %.2f seconds"
           [PyFloat (bounaryStartTime - jobstart)]];;;
  print [VFormat "Bounding      : %.2f seconds"
           [PyFloat (evolveStartTime - bounaryStartTime)]];;;
  print [VFormat "Evolve        : %.2f seconds"
           [PyFloat (uploadStartTime - evolveStartTime)]];;;
  now1 <- time;;
  print [VFormat "Upload        : %.2f seconds" [PyFloat (now1 - uploadStartTime)]];;;
  now2 <- time;;
  print [VFormat "Total time: %.2f seconds" [PyFloat (now2 - jobstart)]].

(** The whole script, top to bottom. *)
Definition main (p : template) : M unit :=
  jobstart <- time;;
  convert_data p;;;
  create_domain p;;;
  setup_domain;;;
  initial_conditions p;;;
  bounaryStartTime <- time;;
  boundary_conditions p;;;
  evolveStartTime <- time;;
  evolve_system;;;
  uploadStartTime <- time;;
  upload_results p;;;
  timer_stats jobstart bounaryStartTime evolveStartTime uploadStartTime.

(** One run of the script: the events in order, and how it ended. *)
Definition run (p : template) (w : world) : list event * (exn + unit) :=
  main p w [].

(** ** Observations on a run *)

(** The calls of a trace, in order. *)
Definition call_of (e : event) : option call :=
  match e with
  | ECall c _ => Some c
  | EPrint _ => None
  end.

Definition calls_of (evs : list event) : list call := omap call_of evs.

(** The argument lists handed to [subprocess.call], in order. *)
Definition args_of (c : call) : option (list string) :=
  match c with
  | subprocess_call args => Some args
  | _ => None
  end.

Definition uploads (evs : list event) : list (list string) :=
  omap args_of (calls_of evs).

(** The file argument of an upload. *)
Definition file_of (args : list string) : option string := args !! 3%nat.
Definition key_of (args : list string) : option string := args !! 2%nat.

(** The exception an event ended with, if any. *)
Definition raised (e : event) : option exn :=
  match e with
  | ECall _ (inl x) => Some x
  | _ => None
  end.

(** What single calls say about the quantities and boundaries. *)
Definition quantity_of (c : call) : option (string * pynum) :=
  match c with
  | set_quantity name numeric => Some (name, numeric)
  | _ => None
  end.

Definition dirichlet_of (c : call) : option (list pynum) :=
  match c with
  | new_boundary (Dirichlet_boundary q) => Some q
  | _ => None
  end.

Definition boundary_map_of (c : call) : option (gmap string boundary) :=
  match c with
  | set_boundary m => Some m
  | _ => None
  end.

Definition maximum_triangle_area_of (c : call) : option pynum :=
  match c with
  | create_domain_from_regions _ _ a _ _ _ => Some a
  | _ => None
  end.

Definition name_of (c : call) : option string :=
  match c with
  | set_name name => Some name
  | _ => None
  end.

(** The boundary objects a call hands to the library. *)
Definition boundaries_of (c : call) : option (list boundary) :=
  match c with
  | new_boundary b => Some [b]
  | set_boundary m => Some (map_to_list m).*2
  | _ => None
  end.

(** The five stages of the pipeline. *)
Inductive stage : Type := Convert | Domain | Conditions | Evolve | Upload.

Definition stage_of (c : call) : option stage :=
  match c with
  | time_time => None
  | nc2asc _ _ _ | asc2dem _ _ _ | dem2pts _ _ _ => Some Convert
  | create_domain_from_regions _ _ _ _ _ _ | len_domain | get_extent
  | statistics | set_name _ | set_datadir _ | set_minimum_storable_height _
  | set_flow_algorithm _ => Some Domain
  | set_quantity _ _ | set_quantity_from_file _ _ _ _ _ | get_boundary_tags
  | new_boundary _ | set_boundary _ => Some Conditions
  | evolve _ _ _ | next_yield | timestepping_statistics
  | boundary_statistics _ => Some Evolve
  | subprocess_call _ => Some Upload
  end.

(** The calls of a trace that belong to a stage (all but [time.time()]). *)
Definition staged (evs : list event) : list call :=
  filter (λ c, is_Some (stage_of c)) (calls_of evs).

(** The stages of the staged calls of a trace, in order. *)
Definition stages (evs : list event) : list stage :=
  omap stage_of (calls_of evs).

(** The file the simulation writes once [domain.set_name(name)] and
    [domain.set_datadir('.')] are done: ANUGA appends the extension to
    the name (line 131: [Name of sww file]). *)
Definition sww_file (name : string) : string := name +:+ ".sww".

(** ** What a run is expected to look like

    These definitions describe the trace of a run in which nothing
    raises; the theorems below relate them to [run]. *)

(** The world never raises, and the two variables are in the process
    environment; [K] holds of every return code of the upload command. *)
Record benign (K : Z → Prop) (bucket dir : string) (w : world) : Prop := Benign {
  benign_bucket : environ w !! "STORAGE_BUCKET" = Some bucket;
  benign_dir : environ w !! "STORAGE_BASE_KEY_PATH" = Some dir;
  benign_library : ∀ h c, ∃ v, library w h c = inr v;
  benign_subprocess : ∀ h args, ∃ k, subprocess w h args = inr k ∧ K k
}.

Definition any_code (k : Z) : Prop := True.

(** The seven files named after [name_stem] (lines 221-227). *)
Definition derived_names (p : template) : list string :=
  [name_stem p +:+ "_UTM.nc"; name_stem p +:+ ".asc"; name_stem p +:+ ".prj";
   name_stem p +:+ ".dem"; name_stem p +:+ ".pts"; name_stem p +:+ ".msh";
   name_stem p +:+ "_fixed_wave.sww"].

(** The (file, key) pairs of lines 220-227. *)
Definition upload_list (p : template) : list (string * string) :=
  (input_dataset p, "raw_elevation") :: map (λ f, (f, f)) (derived_names p).

(** The command line and the message of one upload. *)
Definition upload_args (fk : string * string) : list string :=
  ["cloud"; "upload"; fk.2; fk.1; "--set-acl=public-read"].

Definition upload_message (bucket dir : string) (fk : string * string) (code : Z)
    : string :=
  (((("cloudUpload: " +:+ fk.1) +:+ " to ") +:+
    replace_slashes ((((bucket +:+ "/") +:+ dir) +:+ "/") +:+ fk.2))
   +:+ " returned ") +:+ str code.

(** The two events of one [cloudUpload]. *)
Definition upload_events (bucket dir : string) (fkc : string * string * Z)
    : list event :=
  [ECall (subprocess_call (upload_args fkc.1)) (inr (VNum (PyInt fkc.2)));
   EPrint [VStr (upload_message bucket dir fkc.1 fkc.2)]].

(** The events of the upload step, given the eight return codes. *)
Definition upload_trace (p : template) (bucket dir : string) (codes : list Z)
    : list event :=
  EPrint [VStr "Uploading result files"]
  :: concat (upload_events bucket dir <$> zip (upload_list p) codes).

(** The calls of one evolve loop that yields [n] times. *)
Definition evolve_calls (yieldstep finaltime : pynum) (skip : bool) (n : nat)
    : list call :=
  evolve yieldstep finaltime skip
  :: concat (replicate n [next_yield; timestepping_statistics;
                          boundary_statistics "ocean_wnw"]).

(** The calls of the conversions, of the creation and set-up of the
    domain, and of the initial and boundary conditions. *)
Definition convert_calls (p : template) : list call :=
  [nc2asc (input_dataset p) (name_stem p) 50;
   asc2dem (name_stem p +:+ ".asc") false true;
   dem2pts (name_stem p +:+ ".dem") false true].

Definition domain_calls (p : template) : list call :=
  [create_domain_from_regions busselton_extent boundary_tags
     (py_mul (PyInt 25) (base_scale p)) (name_stem p +:+ ".msh") false true;
   len_domain; get_extent; statistics;
   set_name "busselton_fixed_wave"; set_datadir ".";
   set_minimum_storable_height (PyFloat 0.01); set_flow_algorithm "tsunami"].

Definition condition_calls (p : template) : list call :=
  [set_quantity "stage" (tide p);
   set_quantity "friction" (PyFloat 0.0);
   set_quantity_from_file "elevation" (name_stem p +:+ ".pts") false true
     (PyFloat 0.1);
   get_boundary_tags;
   new_boundary (Dirichlet_boundary [tide p; PyInt 0; PyInt 0]);
   new_boundary Transmissive_stage_zero_momentum_boundary;
   new_boundary (Time_boundary the_wave);
   set_boundary boundary_map].

(** The calls of the two evolve loops. *)
Definition simulation_calls (n1 n2 : nat) : list call :=
  evolve_calls (PyInt 120) (PyInt 5000) false n1
  ++ evolve_calls (PyFloat (60 * 0.5)) (PyInt 7000) true n2.

(** The calls up to the upload step when the loops yield [n1] and [n2]
    times: the four [time.time()] calls sit between the stages. *)
Definition pipeline_calls (p : template) (n1 n2 : nat) : list call :=
  [time_time] ++ convert_calls p ++ domain_calls p
  ++ take 3 (condition_calls p)
  ++ [time_time] ++ drop 3 (condition_calls p)
  ++ [time_time] ++ simulation_calls n1 n2 ++ [time_time].

(** The calls of the upload step. *)
Definition upload_calls (p : template) : list call :=
  (λ fk, subprocess_call (upload_args fk)) <$> upload_list p.

(** All the calls of a run that reaches its end. *)
Definition full_calls (p : template) (n1 n2 : nat) : list call :=
  pipeline_calls p n1 n2 ++ upload_calls p ++ [time_time; time_time].

Definition ocean_tags : list string := ["ocean_wsw"; "ocean_w"; "ocean_wnw"].
Definition other_tags : list string :=
  ["land_sse"; "land_s"; "bottom"; "top"; "land_nne"; "land_ese"; "land_se"].

(** ** Reasoning about runs *)

(** [wp m w Q]: from any history, [m] extends the history by some events
    [evs] and ends with [r] such that [Q evs r]. *)
Definition wp {A} (m : M A) (w : world) (Q : list event → exn + A → Prop) : Prop :=
  ∀ h, ∃ evs r, m w h = (h ++ evs, r) ∧ Q evs r.

(** No event of the trace raised. *)
Definition quiet (evs : list event) : Prop := Forall (λ e, raised e = None) evs.

(** Exceptions are only propagated: if a call raises, it is the last
    event of the trace and its exception ends the run; the only other
    exception is the [KeyError] of a variable missing from the
    environment. *)
Definition fail_stop {A} (w : world) (evs : list event) (r : exn + A) : Prop :=
  match r with
  | inr _ => quiet evs
  | inl x =>
      (∃ evs' c, evs = evs' ++ [ECall c (inl x)] ∧ quiet evs') ∨
      (∃ key, x = KeyError key ∧ environ w !! key = None ∧ quiet evs)
  end.

(** [follows L evs r]: the calls of [evs] are [L] when the program ended
    normally, and a prefix of [L] when it ended with an exception. *)
Definition follows {A} (L : list call) (evs : list event) (r : exn + A) : Prop :=
  match r with
  | inr _ => calls_of evs = L
  | inl _ => calls_of evs `prefix_of` L
  end.

(** The same, for a list of calls that depends on what the world does. *)
Definition follows_some {A I} (G : I → list call) (evs : list event)
    (r : exn + A) : Prop :=
  ∃ i, follows (G i) evs r.

(** ** Concrete worlds and concrete instances of the template *)

(** The library returns [None] everywhere, each evolve loop yields twice,
    the clock stands still and every upload returns [code]. *)
Definition example_world (bucket dir : string) (code : Z) : world :=
  World {[ "STORAGE_BUCKET" := bucket; "STORAGE_BASE_KEY_PATH" := dir ]}
        (λ _ _, inr VNone) (λ _, 2%nat) (λ _ _, inr code) (λ _, 0%R).

Definition example_template : template :=
  Template "elevation.nc" "busselton" (PyInt 20000) (PyFloat 0).

(** An instance whose raw input is named like one of the derived files. *)
Definition clash_template : template :=
  Template "a.asc" "a" (PyInt 1) (PyInt 0).

(** A world without the two variables, and without the [cloud] command. *)
Definition failing_world : world :=
  World ∅ (λ _ _, inr VNone) (λ _, 1%nat)
        (λ _ _, inl (OSError "No such file or directory")) (λ _, 0%R).

(** ** Further observations and worlds *)

(** The library never raises (nothing is said of the environment or of
    the upload command). *)
Definition library_returns (w : world) : Prop :=
  ∀ h c, ∃ v, library w h c = inr v.

(** The variable [cloudUpload] misses first, if any: it reads
    [STORAGE_BUCKET] before [STORAGE_BASE_KEY_PATH]. *)
Definition missing_variable (w : world) : option string :=
  match environ w !! "STORAGE_BUCKET" with
  | None => Some "STORAGE_BUCKET"
  | Some _ =>
      match environ w !! "STORAGE_BASE_KEY_PATH" with
      | None => Some "STORAGE_BASE_KEY_PATH"
      | Some _ => None
      end
  end.


(** The tags a call declares for the segments of the bounding polygon,
    and the polygon itself. *)
Definition boundary_tags_of (c : call) : option (gmap string (list Z)) :=
  match c with
  | create_domain_from_regions _ tags _ _ _ _ => Some tags
  | _ => None
  end.

Definition bounding_polygon_of (c : call) : option (list (Z * Z)) :=
  match c with
  | create_domain_from_regions polygon _ _ _ _ _ => Some polygon
  | _ => None
  end.

(** A world with the two variables in which the [cloud] command cannot
    be started. *)
Definition no_command_world : world :=
  World {[ "STORAGE_BUCKET" := "bucket"; "STORAGE_BASE_KEY_PATH" := "jobs/1" ]}
        (λ _ _, inr VNone) (λ _, 1%nat)
        (λ _ _, inl (OSError "No such file or directory")) (λ _, 0%R).

(** A world in which the mesh generation fails. *)
Definition mesh_failure_world : world :=
  World ∅
        (λ _ c, match c with
                | create_domain_from_regions _ _ _ _ _ _ =>
                    inl (LibraryError "mesh generation failed")
                | _ => inr VNone
                end)
        (λ _, 1%nat) (λ _ _, inr 0%Z) (λ _, 0%R).

(** * Properties *)

(** ** The wave *)

(** The period [60*10] is the int 600. *)
Lemma period_600 : py_mul (PyInt 60) (PyInt 10) = PyInt 600.
Proof. reflexivity. Qed.

Lemma py_div_float_l (r : R) (z : Z) :
  z ≠ 0%Z → py_div (PyFloat r) (PyInt z) = inr (PyFloat (r / IZR z)).
Proof.
  intros Hz. cbn. destruct (Req_dec_T (IZR z) 0) as [H0|_]; [|done].
  exfalso. apply Hz. by apply eq_IZR.
Qed.

(** C1: at every time [t] (the model time of the solver, a float)
    [the_wave] returns the boundary value whose stage is
    [20*sin(t*pi/600)*exp(-t/600)] and whose two momenta are 0; and at
    any argument at all it returns, with both momenta 0. *)
Theorem the_wave_formula (t : R) (a : pynum) :
  the_wave (PyFloat t) =
    inr [PyFloat (20 * sin (t * PI / 600) * exp (- t / 600)); PyInt 0; PyInt 0] ∧
  ∃ stage, the_wave a = inr [PyFloat stage; PyInt 0; PyInt 0].
Proof.
  split.
  - unfold the_wave. rewrite period_600.
    change (py_mul (PyFloat t) np_pi) with (PyFloat (t * PI)).
    change (py_neg (PyFloat t)) with (PyFloat (- t)).
    rewrite !py_div_float_l by done. reflexivity.
  - unfold the_wave. rewrite period_600. destruct a as [z|r].
    + change (py_mul (PyInt z) np_pi) with (PyFloat (IZR z * PI)).
      rewrite py_div_float_l by done. cbn. eexists. reflexivity.
    + change (py_mul (PyFloat r) np_pi) with (PyFloat (r * PI)).
      change (py_neg (PyFloat r)) with (PyFloat (- r)).
      rewrite !py_div_float_l by done. eexists. reflexivity.
Qed.

(** At a Python 2 [int] argument the decay exponent [-t/600] is a floor
    division; the solver never passes one (its model time is a float). *)
Remark the_wave_int_floor_division :
  the_wave (PyInt 1) =
    inr [PyFloat (20 * sin (1 * PI / 600) * exp (-1)); PyInt 0; PyInt 0].
Proof.
  unfold the_wave. rewrite period_600.
  change (py_mul (PyInt 1) np_pi) with (PyFloat (1 * PI)).
  rewrite py_div_float_l by done. reflexivity.
Qed.

(** ** Strings *)

Example str_examples :
  str 0 = "0" ∧ str 1 = "1" ∧ str 255 = "255" ∧ str (-9) = "-9".
Proof. repeat split; reflexivity. Qed.

Example replace_slashes_examples :
  replace_slashes "bucket//jobs/1/raw_elevation" = "bucket/jobs/1/raw_elevation" ∧
  replace_slashes "a///b" = "a//b" ∧
  replace_slashes "a////b" = "a//b".
Proof. repeat split; reflexivity. Qed.

Example upload_message_example :
  upload_message "bucket" "/jobs/1" ("a.asc", "a.asc") 1 =
    "cloudUpload: a.asc to bucket/jobs/1/a.asc returned 1".
Proof. reflexivity. Qed.


(** ** Rules for [wp] *)

Section wp_rules.
Context (w : world).

Lemma wp_ret {A} (a : A) (Q : list event → exn + A → Prop) :
  Q [] (inr a) → wp (ret a) w Q.
Proof. intros HQ h. exists [], (inr a). by rewrite app_nil_r. Qed.

Lemma wp_bind {A B} (m : M A) (f : A → M B) (Q : list event → exn + B → Prop) :
  wp m w (λ evs1 r1,
    match r1 with
    | inr a => wp (f a) w (λ evs2 r2, Q (evs1 ++ evs2) r2)
    | inl e => Q evs1 (inl e)
    end) →
  wp (bind m f) w Q.
Proof.
  intros Hm h. destruct (Hm h) as (evs1 & r1 & Heq & HQ).
  unfold bind. rewrite Heq. destruct r1 as [e|a].
  - by exists evs1, (inl e).
  - destruct (HQ (h ++ evs1)) as (evs2 & r2 & Heq2 & HQ2).
    exists (evs1 ++ evs2), r2. by rewrite Heq2, (assoc_L (++)).
Qed.

Lemma wp_mono {A} (m : M A) (Q Q' : list event → exn + A → Prop) :
  wp m w Q → (∀ evs r, Q evs r → Q' evs r) → wp m w Q'.
Proof.
  intros Hm HQ h. destruct (Hm h) as (evs & r & Heq & H).
  exists evs, r. auto.
Qed.

Lemma wp_ext_any (c : call) (Q : list event → exn + pyval → Prop) :
  (∀ r, Q [ECall c r] r) → wp (ext c) w Q.
Proof. intros HQ h. by exists [ECall c (library w h c)], (library w h c). Qed.

Lemma wp_time (Q : list event → exn + R → Prop) :
  (∀ t, Q [ECall time_time (inr (VNum (PyFloat t)))] (inr t)) → wp time w Q.
Proof.
  intros HQ h.
  by exists [ECall time_time (inr (VNum (PyFloat (clock w h))))], (inr (clock w h)).
Qed.

Lemma wp_print (items : list pyval) (Q : list event → exn + unit → Prop) :
  Q [EPrint items] (inr tt) → wp (print items) w Q.
Proof. intros HQ h. by exists [EPrint items], (inr tt). Qed.

Lemma wp_subprocess_any (args : list string) (Q : list event → exn + Z → Prop) :
  (∀ k, Q [ECall (subprocess_call args) (inr (VNum (PyInt k)))] (inr k)) →
  (∀ e, Q [ECall (subprocess_call args) (inl e)] (inl e)) →
  wp (subprocess_run args) w Q.
Proof.
  intros Hk He h. unfold subprocess_run.
  destruct (subprocess w h args) as [e|k]; eauto.
Qed.

Lemma wp_environ (key : string) (Q : list event → exn + string → Prop) :
  match environ w !! key with
  | Some v => Q [] (inr v)
  | None => Q [] (inl (KeyError key))
  end →
  wp (os_environ key) w Q.
Proof.
  intros HQ h. unfold os_environ.
  destruct (environ w !! key) as [v|].
  - exists [], (inr v). by rewrite app_nil_r.
  - exists [], (inl (KeyError key)). by rewrite app_nil_r.
Qed.

(** In a benign world the calls return. *)
Context (K : Z → Prop) (bucket dir : string) (Hw : benign K bucket dir w).

Lemma wp_ext (c : call) (Q : list event → exn + pyval → Prop) :
  (∀ v, Q [ECall c (inr v)] (inr v)) → wp (ext c) w Q.
Proof.
  intros HQ h. destruct (benign_library _ _ _ _ Hw h c) as [v Hv].
  exists [ECall c (inr v)], (inr v). unfold ext. by rewrite Hv.
Qed.

Lemma wp_subprocess (args : list string) (Q : list event → exn + Z → Prop) :
  (∀ k, K k → Q [ECall (subprocess_call args) (inr (VNum (PyInt k)))] (inr k)) →
  wp (subprocess_run args) w Q.
Proof.
  intros HQ h. destruct (benign_subprocess _ _ _ _ Hw h args) as (k & Hk & HK).
  unfold subprocess_run. rewrite Hk. eauto.
Qed.

Lemma wp_bucket (Q : list event → exn + string → Prop) :
  Q [] (inr bucket) → wp (os_environ "STORAGE_BUCKET") w Q.
Proof. intros HQ. apply wp_environ. by rewrite (benign_bucket _ _ _ _ Hw). Qed.

Lemma wp_dir (Q : list event → exn + string → Prop) :
  Q [] (inr dir) → wp (os_environ "STORAGE_BASE_KEY_PATH") w Q.
Proof. intros HQ. apply wp_environ. by rewrite (benign_dir _ _ _ _ Hw). Qed.
End wp_rules.

(** One step through a straight-line block in a benign world. *)
Ltac wp_step Hw :=
  first
    [ apply wp_bind
    | eapply (wp_ext _ _ _ _ Hw); intros ?
    | apply wp_time; intros ?
    | apply wp_print
    | eapply (wp_bucket _ _ _ _ Hw)
    | eapply (wp_dir _ _ _ _ Hw)
    | apply wp_ret ];
  cbv beta iota.

Section stages.
Context (w : world) (K : Z → Prop) (bucket dir : string).
Context (Hw : benign K bucket dir w).
Implicit Types p : template.

Lemma convert_data_ok p :
  wp (convert_data p) w (λ evs r, r = inr tt ∧ calls_of evs = convert_calls p).
Proof. unfold convert_data. repeat wp_step Hw. done. Qed.

Lemma create_domain_ok p :
  wp (create_domain p) w (λ evs r,
    r = inr tt ∧ calls_of evs = take 4 (domain_calls p)).
Proof. unfold create_domain. repeat wp_step Hw. done. Qed.

Lemma setup_domain_ok p :
  wp setup_domain w (λ evs r,
    r = inr tt ∧ calls_of evs = drop 4 (domain_calls p)).
Proof. unfold setup_domain. repeat wp_step Hw. done. Qed.

Lemma initial_conditions_ok p :
  wp (initial_conditions p) w (λ evs r,
    r = inr tt ∧ calls_of evs = take 3 (condition_calls p)).
Proof. unfold initial_conditions. repeat wp_step Hw. done. Qed.

Lemma boundary_conditions_ok p :
  wp (boundary_conditions p) w (λ evs r,
    r = inr tt ∧ calls_of evs = drop 3 (condition_calls p)).
Proof. unfold boundary_conditions. repeat wp_step Hw. done. Qed.
End stages.

Lemma calls_of_app (evs1 evs2 : list event) :
  calls_of (evs1 ++ evs2) = calls_of evs1 ++ calls_of evs2.
Proof. apply omap_app. Qed.

Lemma calls_of_cons (c : call) (r : exn + pyval) (evs : list event) :
  calls_of (ECall c r :: evs) = c :: calls_of evs.
Proof. reflexivity. Qed.

Section loops_and_uploads.
Context (w : world) (K : Z → Prop) (bucket dir : string).
Context (Hw : benign K bucket dir w).
Implicit Types p : template.

Lemma for_yields_ok (n : nat) :
  wp (for_yields n evolve_body) w (λ evs r,
    r = inr tt ∧
    calls_of evs = concat (replicate n [next_yield; timestepping_statistics;
                                        boundary_statistics "ocean_wnw"])).
Proof.
  induction n as [|n IH]; simpl.
  - by apply wp_ret.
  - unfold evolve_body. repeat wp_step Hw.
    eapply wp_mono; [apply IH|]. intros evs r [-> Hc].
    split; [done|]. rewrite !calls_of_app, Hc. done.
Qed.

Lemma for_evolve_ok (yieldstep finaltime : pynum) (skip : bool) :
  wp (for_evolve yieldstep finaltime skip evolve_body) w (λ evs r,
    r = inr tt ∧ ∃ n, calls_of evs = evolve_calls yieldstep finaltime skip n).
Proof.
  unfold for_evolve. do 2 wp_step Hw.
  intros h. destruct (for_yields_ok (evolve_yields w h) h) as (evs & r & Heq & -> & Hc).
  exists evs, (inr tt). split; [done|]. split; [done|].
  exists (evolve_yields w h). rewrite calls_of_app, Hc. done.
Qed.

Lemma evolve_system_ok :
  wp evolve_system w (λ evs r,
    r = inr tt ∧ ∃ n1 n2, calls_of evs = simulation_calls n1 n2).
Proof.
  unfold evolve_system. apply wp_bind.
  eapply wp_mono; [apply for_evolve_ok|]. intros evs1 r1 (-> & n1 & Hc1).
  eapply wp_mono; [apply for_evolve_ok|]. intros evs2 r2 (-> & n2 & Hc2).
  split; [done|]. exists n1, n2. rewrite calls_of_app, Hc1, Hc2.
  unfold simulation_calls. do 2 f_equal.
Qed.

Lemma cloudUpload_ok (inFilePath cloudKey : string) :
  wp (cloudUpload inFilePath cloudKey) w (λ evs r,
    r = inr tt ∧
    ∃ code, K code ∧ evs = upload_events bucket dir (inFilePath, cloudKey, code)).
Proof.
  unfold cloudUpload. do 4 wp_step Hw. apply wp_bind.
  eapply (wp_subprocess _ _ _ _ Hw). intros code HK. wp_step Hw.
  split; [done|]. by exists code.
Qed.

Lemma upload_results_ok p :
  wp (upload_results p) w (λ evs r,
    r = inr tt ∧
    ∃ codes, length codes = 8 ∧ Forall K codes ∧
             evs = upload_trace p bucket dir codes).
Proof.
  unfold upload_results. do 2 wp_step Hw.
  do 7 (apply wp_bind; eapply wp_mono; [apply cloudUpload_ok|];
        intros ? ? (-> & ? & ? & ->)).
  eapply wp_mono; [apply cloudUpload_ok|]. intros ? ? (-> & ? & ? & ->).
  split; [done|].
  eexists [_; _; _; _; _; _; _; _]. split; [done|]. split; [|reflexivity].
  repeat constructor; assumption.
Qed.

Lemma timer_stats_ok (t0 t1 t2 t3 : R) :
  wp (timer_stats t0 t1 t2 t3) w (λ evs r,
    r = inr tt ∧ calls_of evs = [time_time; time_time]).
Proof. unfold timer_stats. repeat wp_step Hw. done. Qed.

Lemma main_ok p :
  wp (main p) w (λ tr r,
    r = inr tt ∧
    ∃ pre codes post n1 n2,
      tr = pre ++ upload_trace p bucket dir codes ++ post ∧
      length codes = 8 ∧ Forall K codes ∧
      calls_of pre = pipeline_calls p n1 n2 ∧
      calls_of post = [time_time; time_time]).
Proof.
  unfold main. do 2 wp_step Hw.
  apply wp_bind. eapply wp_mono; [apply (convert_data_ok _ _ _ _ Hw p)|].
  intros e1 ? [-> H1].
  apply wp_bind. eapply wp_mono; [apply (create_domain_ok _ _ _ _ Hw p)|].
  intros e2 ? [-> H2].
  apply wp_bind. eapply wp_mono; [apply (setup_domain_ok _ _ _ _ Hw p)|].
  intros e3 ? [-> H3].
  apply wp_bind. eapply wp_mono; [apply (initial_conditions_ok _ _ _ _ Hw p)|].
  intros e4 ? [-> H4]. do 2 wp_step Hw.
  apply wp_bind. eapply wp_mono; [apply (boundary_conditions_ok _ _ _ _ Hw p)|].
  intros e5 ? [-> H5]. do 2 wp_step Hw.
  apply wp_bind. eapply wp_mono; [apply evolve_system_ok|].
  intros e6 ? (-> & n1 & n2 & H6). do 2 wp_step Hw.
  apply wp_bind. eapply wp_mono; [apply upload_results_ok|].
  intros e7 ? (-> & codes & Hlen & HK & ->).
  eapply wp_mono; [apply timer_stats_ok|]. intros e8 ? [-> H8].
  split; [done|].
  eexists (_ :: e1 ++ e2 ++ e3 ++ e4 ++ _ :: e5 ++ _ :: e6 ++ [_]),
    codes, e8, n1, n2.
  split; [|split; [done|split; [done|split; [|done]]]].
  - simpl. repeat (rewrite <- app_assoc; simpl). reflexivity.
  - repeat (rewrite calls_of_cons || rewrite calls_of_app).
    rewrite H1, H2, H3, H4, H5, H6.
    unfold pipeline_calls.
    rewrite <- (take_drop 4 (domain_calls p)) at 3.
    simpl. repeat (rewrite <- app_assoc; simpl). reflexivity.
Qed.
End loops_and_uploads.

(** In a benign world the script runs to its end, and its trace is: the
    pipeline, the upload step, the two closing [time.time()] calls. *)
Lemma run_benign (K : Z → Prop) (bucket dir : string) (w : world) (p : template) :
  benign K bucket dir w →
  ∃ pre codes post n1 n2,
    run p w = (pre ++ upload_trace p bucket dir codes ++ post, inr tt) ∧
    length codes = 8 ∧ Forall K codes ∧
    calls_of pre = pipeline_calls p n1 n2 ∧
    calls_of post = [time_time; time_time].
Proof.
  intros Hw.
  destruct (main_ok w K bucket dir Hw p []) as (tr & r & Heq & -> & H).
  destruct H as (pre & codes & post & n1 & n2 & -> & H).
  exists pre, codes, post, n1, n2. split; [exact Heq|done].
Qed.

(** ** Exceptions are propagated and nothing else *)

Section fail_stop_rules.
Context (w : world).

Lemma quiet_app (evs1 evs2 : list event) :
  quiet evs1 → quiet evs2 → quiet (evs1 ++ evs2).
Proof. unfold quiet. rewrite Forall_app. auto. Qed.

Lemma fail_stop_app {A B} (evs1 evs2 : list event) (a : A) (r : exn + B) :
  fail_stop w evs1 (inr a) → fail_stop w evs2 r → fail_stop w (evs1 ++ evs2) r.
Proof.
  intros H1. destruct r as [x|b]; simpl.
  - intros [(evs' & c & -> & Hq)|(key & -> & Hk & Hq)].
    + left. exists (evs1 ++ evs'), c. split; [by rewrite (assoc_L (++))|].
      by apply quiet_app.
    + right. exists key. split; [done|]. split; [done|]. by apply quiet_app.
  - by apply quiet_app.
Qed.

Lemma fs_bind {A B} (m : M A) (f : A → M B) :
  wp m w (fail_stop w) → (∀ a, wp (f a) w (fail_stop w)) →
  wp (bind m f) w (fail_stop w).
Proof.
  intros Hm Hf. apply wp_bind. eapply wp_mono; [exact Hm|].
  intros evs1 [x|a] H1; [exact H1|].
  eapply wp_mono; [apply Hf|]. intros evs2 r2 H2. by eapply fail_stop_app.
Qed.

Lemma fs_ret {A} (a : A) : wp (ret a) w (fail_stop w).
Proof. apply wp_ret. constructor. Qed.

Lemma fs_print (items : list pyval) : wp (print items) w (fail_stop w).
Proof. apply wp_print. by repeat constructor. Qed.

Lemma fs_time : wp time w (fail_stop w).
Proof. apply wp_time. intros t. by repeat constructor. Qed.

Lemma fs_ext (c : call) : wp (ext c) w (fail_stop w).
Proof.
  apply wp_ext_any. intros [x|v].
  - left. exists [], c. split; [done|constructor].
  - by repeat constructor.
Qed.

Lemma fs_subprocess (args : list string) :
  wp (subprocess_run args) w (fail_stop w).
Proof.
  apply wp_subprocess_any.
  - intros k. by repeat constructor.
  - intros x. left. exists [], (subprocess_call args). split; [done|constructor].
Qed.

Lemma fs_environ (key : string) : wp (os_environ key) w (fail_stop w).
Proof.
  apply wp_environ. destruct (environ w !! key) as [v|] eqn:Hk.
  - constructor.
  - right. exists key. split; [done|]. split; [done|constructor].
Qed.

Lemma fs_for_yields (n : nat) (body : M unit) :
  wp body w (fail_stop w) → wp (for_yields n body) w (fail_stop w).
Proof.
  intros Hb. induction n as [|n IH]; simpl.
  - apply fs_ret.
  - apply fs_bind; [apply fs_ext|]. intros _.
    apply fs_bind; [exact Hb|]. intros _. exact IH.
Qed.

Lemma fs_for_evolve (ys ft : pynum) (skip : bool) (body : M unit) :
  wp body w (fail_stop w) → wp (for_evolve ys ft skip body) w (fail_stop w).
Proof.
  intros Hb. apply fs_bind; [apply fs_ext|]. intros _ h.
  apply (fs_for_yields (evolve_yields w h) body Hb h).
Qed.
End fail_stop_rules.

Ltac fs_step :=
  first
    [ apply fs_ret | apply fs_print | apply fs_time | apply fs_ext
    | apply fs_subprocess | apply fs_environ
    | apply fs_for_evolve | apply fs_bind; [|intros ?] ].

Lemma fs_cloudUpload (w : world) (inFilePath cloudKey : string) :
  wp (cloudUpload inFilePath cloudKey) w (fail_stop w).
Proof. unfold cloudUpload. repeat fs_step. Qed.

Lemma fs_main (w : world) (p : template) : wp (main p) w (fail_stop w).
Proof.
  unfold main, convert_data, create_domain, setup_domain, initial_conditions,
    boundary_conditions, evolve_system, evolve_body, upload_results, timer_stats.
  repeat first [apply fs_cloudUpload | fs_step].
Qed.

(** Whatever the world does, a run is fail-stop. *)
Lemma run_fail_stop (w : world) (p : template) :
  fail_stop w (run p w).1 (run p w).2.
Proof.
  destruct (fs_main w p []) as (evs & r & Heq & H).
  unfold run. by rewrite Heq.
Qed.

(** ** The calls of a benign run *)

Lemma calls_of_upload_trace (p : template) (bucket dir : string) (codes : list Z) :
  length codes = 8 →
  calls_of (upload_trace p bucket dir codes) = upload_calls p.
Proof.
  intros Hlen.
  do 8 (destruct codes as [|? codes]; [discriminate Hlen|]).
  destruct codes; [reflexivity|discriminate Hlen].
Qed.

Lemma run_benign_calls (K : Z → Prop) (bucket dir : string) (w : world)
    (p : template) :
  benign K bucket dir w →
  ∃ tr n1 n2,
    run p w = (tr, inr tt) ∧
    calls_of tr = pipeline_calls p n1 n2 ++ upload_calls p ++ [time_time; time_time].
Proof.
  intros Hw.
  destruct (run_benign K bucket dir w p Hw)
    as (pre & codes & post & n1 & n2 & Hrun & Hlen & _ & Hpre & Hpost).
  exists (pre ++ upload_trace p bucket dir codes ++ post), n1, n2.
  split; [done|].
  by rewrite !calls_of_app, Hpre, Hpost, calls_of_upload_trace.
Qed.

(** The calls of the evolve loops all belong to the evolve stage. *)
Lemma evolve_calls_stage (ys ft : pynum) (skip : bool) (n : nat) :
  Forall (λ c, stage_of c = Some Evolve) (evolve_calls ys ft skip n).
Proof.
  unfold evolve_calls. constructor; [done|].
  induction n as [|n IH]; simpl; [constructor|].
  by repeat constructor.
Qed.

Lemma simulation_calls_stage (n1 n2 : nat) :
  Forall (λ c, stage_of c = Some Evolve) (simulation_calls n1 n2).
Proof. apply Forall_app. split; apply evolve_calls_stage. Qed.

Lemma omap_all_None {A B} (f : A → option B) (l : list A) :
  Forall (λ a, f a = None) l → omap f l = [].
Proof. induction 1 as [|a l Ha _ IH]; simpl; [done|]. by rewrite Ha. Qed.

(** An observation that is blind to the evolve stage sees nothing of the
    evolve loops. *)
Lemma omap_simulation_calls {B} (f : call → option B) (n1 n2 : nat) :
  (∀ c, stage_of c = Some Evolve → f c = None) →
  omap f (simulation_calls n1 n2) = [].
Proof.
  intros Hf. apply omap_all_None.
  eapply Forall_impl; [apply simulation_calls_stage|]. exact Hf.
Qed.

Lemma omap_cons_None {A B} (f : A → option B) (a : A) (l : list A) :
  f a = None → omap f (a :: l) = omap f l.
Proof. intros Ha. simpl. by rewrite Ha. Qed.

Lemma omap_pipeline_calls {B} (f : call → option B) (p : template) (n1 n2 : nat) :
  f time_time = None →
  (∀ c, stage_of c = Some Evolve → f c = None) →
  omap f (pipeline_calls p n1 n2) =
    omap f (convert_calls p ++ domain_calls p ++ condition_calls p).
Proof.
  intros Ht Hf. unfold pipeline_calls.
  rewrite <- (take_drop 3 (condition_calls p)) at 3.
  repeat (rewrite omap_app || rewrite (omap_cons_None f time_time _ Ht)).
  rewrite (omap_simulation_calls f n1 n2 Hf). by rewrite app_nil_r.
Qed.

Lemma stages_evolve_calls (ys ft : pynum) (skip : bool) (n : nat) :
  omap stage_of (evolve_calls ys ft skip n) = replicate (1 + 3 * n) Evolve.
Proof.
  unfold evolve_calls. simpl. f_equal.
  induction n as [|n IH]; simpl; [done|].
  rewrite IH. replace (n + S (n + S (n + 0)))%nat with (2 + 3 * n)%nat by lia.
  done.
Qed.

(** ** Strings: appending a suffix *)

Lemma list_ascii_app (s t : string) :
  String.list_ascii_of_string (s +:+ t) =
    String.list_ascii_of_string s ++ String.list_ascii_of_string t.
Proof. induction s as [|c s IH]; simpl; [done|]. by rewrite IH. Qed.

Lemma list_ascii_inj (s t : string) :
  String.list_ascii_of_string s = String.list_ascii_of_string t → s = t.
Proof.
  intros H. rewrite <- (String.string_of_list_ascii_of_string s),
    <- (String.string_of_list_ascii_of_string t). by rewrite H.
Qed.

Lemma append_inv_tail (s s' t : string) : s +:+ t = s' +:+ t → s = s'.
Proof.
  intros H. apply list_ascii_inj.
  apply (f_equal String.list_ascii_of_string) in H.
  rewrite !list_ascii_app in H. by apply app_inv_tail in H.
Qed.

Lemma append_inv_head (s t t' : string) : s +:+ t = s +:+ t' → t = t'.
Proof. induction s as [|c s IH]; simpl; [done|]. intros [=]. auto. Qed.

(** The last character of a string. *)
Lemma last_char_append (s t : string) (c : ascii) :
  last (String.list_ascii_of_string t) = Some c →
  last (String.list_ascii_of_string (s +:+ t)) = Some c.
Proof. intros Ht. rewrite list_ascii_app, last_app. by rewrite Ht. Qed.

Lemma raw_elevation_not_derived (p : template) :
  "raw_elevation" ∉ derived_names p.
Proof.
  intros Hin.
  assert (Hn : last (String.list_ascii_of_string "raw_elevation") = Some "n"%char)
    by reflexivity.
  unfold derived_names in Hin.
  repeat (apply elem_of_cons in Hin as [Heq|Hin];
    [rewrite Heq in Hn; erewrite last_char_append in Hn by reflexivity;
     discriminate Hn|]).
  by apply elem_of_nil in Hin.
Qed.

Lemma derived_names_NoDup (p : template) : NoDup (derived_names p).
Proof.
  unfold derived_names.
  repeat (apply NoDup_cons; split;
    [intros Hin;
     repeat (apply elem_of_cons in Hin as [Heq|Hin];
             [apply append_inv_head in Heq; discriminate Heq|]);
     by apply elem_of_nil in Hin|]).
  apply NoDup_nil_2.
Qed.

Lemma example_world_benign (K : Z → Prop) (bucket dir : string) (code : Z) :
  K code → benign K bucket dir (example_world bucket dir code).
Proof.
  intros HK. split.
  - reflexivity.
  - reflexivity.
  - intros h c. by exists VNone.
  - intros h args. by exists code.
Qed.

Lemma uploads_benign (tr : list event) (p : template) (n1 n2 : nat) :
  calls_of tr = pipeline_calls p n1 n2 ++ upload_calls p ++ [time_time; time_time] →
  uploads tr = upload_args <$> upload_list p.
Proof.
  intros Hc. unfold uploads. rewrite Hc, omap_app.
  rewrite omap_pipeline_calls; [reflexivity|done|].
  by intros [].
Qed.

(** ** The calls of any run *)

Section follows_rules.
Context (w : world).

Lemma follows_prefix {A} (L : list call) (evs : list event) (r : exn + A) :
  follows L evs r → calls_of evs `prefix_of` L.
Proof. destruct r; simpl; [done|]. by intros ->. Qed.

Lemma fo_bind_some {A B I J} `{Inhabited J} (m : M A) (f : A → M B)
    (G1 : I → list call) (G2 : J → list call) :
  wp m w (follows_some G1) →
  (∀ a, wp (f a) w (follows_some G2)) →
  wp (bind m f) w (follows_some (λ ij : I * J, G1 ij.1 ++ G2 ij.2)).
Proof.
  intros Hm Hf. apply wp_bind. eapply wp_mono; [exact Hm|].
  intros evs1 [x|a] [i H1].
  - exists (i, inhabitant). simpl in *. by apply prefix_app_r.
  - eapply wp_mono; [apply Hf|]. intros evs2 r2 [j H2].
    exists (i, j). simpl in H1. unfold follows in *. rewrite calls_of_app, H1.
    destruct r2; simpl in *; [by apply prefix_app|by rewrite H2].
Qed.

Lemma fo_some {A} (m : M A) (L : list call) :
  wp m w (follows L) → wp m w (follows_some (λ _ : (), L)).
Proof. intros Hm. eapply wp_mono; [exact Hm|]. intros evs r H. by exists (). Qed.

Lemma fo_bind {A B} (m : M A) (f : A → M B) (L1 L2 : list call) :
  wp m w (follows L1) → (∀ a, wp (f a) w (follows L2)) →
  wp (bind m f) w (follows (L1 ++ L2)).
Proof.
  intros Hm Hf.
  eapply wp_mono;
    [apply (fo_bind_some m f (λ _ : (), L1) (λ _ : (), L2));
       [by apply fo_some|intros a; by apply fo_some]|].
  by intros evs r [[[] []] H].
Qed.

Lemma fo_ret {A} (a : A) : wp (ret a) w (follows []).
Proof. apply wp_ret. reflexivity. Qed.

Lemma fo_print (items : list pyval) : wp (print items) w (follows []).
Proof. apply wp_print. reflexivity. Qed.

Lemma fo_time : wp time w (follows [time_time]).
Proof. apply wp_time. intros t. reflexivity. Qed.

Lemma fo_ext (c : call) : wp (ext c) w (follows [c]).
Proof. apply wp_ext_any. intros [x|v]; simpl; reflexivity. Qed.

Lemma fo_subprocess (args : list string) :
  wp (subprocess_run args) w (follows [subprocess_call args]).
Proof. apply wp_subprocess_any; intros ?; simpl; reflexivity. Qed.

Lemma fo_environ (key : string) : wp (os_environ key) w (follows []).
Proof. apply wp_environ. destruct (environ w !! key); simpl; reflexivity. Qed.

Lemma fo_for_yields (n : nat) :
  wp (for_yields n evolve_body) w
    (follows (concat (replicate n [next_yield; timestepping_statistics;
                                   boundary_statistics "ocean_wnw"]))).
Proof.
  induction n as [|n IH]; simpl; [apply fo_ret|].
  apply (fo_bind _ _ [_]); [apply fo_ext|intros _].
  apply (fo_bind _ _ [_; _]); [|intros _; exact IH].
  unfold evolve_body.
  apply (fo_bind _ _ [_]); [apply fo_ext|intros ?].
  apply (fo_bind _ _ []); [apply fo_print|intros _].
  apply (fo_bind _ _ [_]); [apply fo_ext|intros ?].
  apply fo_print.
Qed.

Lemma fo_for_evolve (ys ft : pynum) (skip : bool) :
  wp (for_evolve ys ft skip evolve_body) w (follows_some (evolve_calls ys ft skip)).
Proof.
  unfold for_evolve. apply wp_bind. apply wp_ext_any. intros [x|v].
  - exists 0%nat. simpl. done.
  - intros h.
    destruct (fo_for_yields (evolve_yields w h) h) as (evs & r & Heq & H).
    exists evs, r. split; [done|]. exists (evolve_yields w h).
    unfold follows in *. rewrite calls_of_app.
    destruct r; simpl in *; [by apply (prefix_cons (evolve ys ft skip))|].
    by rewrite H.
Qed.

Lemma fo_evolve_system :
  wp evolve_system w
    (follows_some (λ n : nat * nat, simulation_calls n.1 n.2)).
Proof.
  unfold evolve_system.
  eapply wp_mono;
    [apply (fo_bind_some (I:=nat) (J:=nat) _ _
              (evolve_calls (PyInt 120) (PyInt 5000) false)
              (evolve_calls (PyFloat (60 * 0.5)) (PyInt 7000) true));
       [apply fo_for_evolve|intros _; apply fo_for_evolve]|].
  intros evs r [n H]. by exists n.
Qed.

Lemma fo_cloudUpload (inFilePath cloudKey : string) :
  wp (cloudUpload inFilePath cloudKey) w
    (follows [subprocess_call (upload_args (inFilePath, cloudKey))]).
Proof.
  unfold cloudUpload.
  apply (fo_bind _ _ []); [apply fo_environ|intros ?].
  apply (fo_bind _ _ []); [apply fo_environ|intros ?].
  apply (fo_bind _ _ [_]); [apply fo_subprocess|intros ?].
  apply fo_print.
Qed.
End follows_rules.

(** One step through a straight-line block in any world. *)
Ltac fo_step :=
  first
    [ apply fo_ret | apply fo_print | apply fo_time | apply fo_ext
    | apply fo_cloudUpload
    | apply (fo_bind _ _ _ [_]); [first [apply fo_ext|apply fo_time
                                        |apply fo_cloudUpload]|intros ?]
    | apply (fo_bind _ _ _ []); [apply fo_print|intros ?] ].

Section follows_stages.
Context (w : world).
Implicit Types p : template.

Lemma fo_convert_data p : wp (convert_data p) w (follows (convert_calls p)).
Proof. unfold convert_data. repeat fo_step. Qed.

Lemma fo_create_domain p :
  wp (create_domain p) w (follows (take 4 (domain_calls p))).
Proof. unfold create_domain. repeat fo_step. Qed.

Lemma fo_setup_domain p : wp setup_domain w (follows (drop 4 (domain_calls p))).
Proof. unfold setup_domain. repeat fo_step. Qed.

Lemma fo_initial_conditions p :
  wp (initial_conditions p) w (follows (take 3 (condition_calls p))).
Proof. unfold initial_conditions. repeat fo_step. Qed.

Lemma fo_boundary_conditions p :
  wp (boundary_conditions p) w (follows (drop 3 (condition_calls p))).
Proof. unfold boundary_conditions. repeat fo_step. Qed.

Lemma fo_upload_results p : wp (upload_results p) w (follows (upload_calls p)).
Proof. unfold upload_results. repeat fo_step. Qed.

Lemma fo_timer_stats (t0 t1 t2 t3 : R) :
  wp (timer_stats t0 t1 t2 t3) w (follows [time_time; time_time]).
Proof. unfold timer_stats. repeat fo_step. Qed.

Lemma fo_main p :
  wp (main p) w (follows_some (λ n : nat * nat, full_calls p n.1 n.2)).
Proof.
  unfold main.
  assert (Htail : ∀ t0 t1 t2, wp
    (uploadStartTime <- time;; upload_results p;;;
     timer_stats t0 t1 t2 uploadStartTime) w
    (follows ([time_time] ++ upload_calls p ++ [time_time; time_time]))).
  { intros t0 t1 t2. apply fo_bind; [apply fo_time|intros t3].
    apply fo_bind; [apply fo_upload_results|intros _]. apply fo_timer_stats. }
  assert (Hsim : ∀ t0 t1 t2, wp
    (evolve_system;;; uploadStartTime <- time;; upload_results p;;;
     timer_stats t0 t1 t2 uploadStartTime) w
    (follows_some (λ n : nat * nat,
       simulation_calls n.1 n.2
       ++ [time_time] ++ upload_calls p ++ [time_time; time_time]))).
  { intros t0 t1 t2. eapply wp_mono;
      [apply (fo_bind_some (I:=nat * nat) (J:=()) _ _ _ _
                (λ _, [time_time] ++ upload_calls p ++ [time_time; time_time])
                (fo_evolve_system w));
         intros _; apply fo_some, (Htail t0 t1 t2)|].
    intros evs r [[n []] H]. by exists n. }
  assert (Hhead : ∀ {A} (m : M A) (f : A → M unit) L (G : nat * nat → list call),
    wp m w (follows L) → (∀ a, wp (f a) w (follows_some G)) →
    wp (bind m f) w (follows_some (λ n, L ++ G n))).
  { intros A m f L G Hm Hf. eapply wp_mono;
      [apply (fo_bind_some (I:=()) (J:=nat * nat) _ _ _ _ _
                (fo_some _ _ _ Hm) Hf)|].
    intros evs r [[[] n] H]. by exists n. }
  eapply wp_mono.
  - apply Hhead; [apply fo_time|intros t0].
    apply Hhead; [apply (fo_convert_data p)|intros _].
    apply Hhead; [apply (fo_create_domain p)|intros _].
    apply Hhead; [apply (fo_setup_domain p)|intros _].
    apply Hhead; [apply (fo_initial_conditions p)|intros _].
    apply Hhead; [apply fo_time|intros t1].
    apply Hhead; [apply (fo_boundary_conditions p)|intros _].
    apply Hhead; [apply fo_time|intros t2].
    apply Hsim.
  - intros evs r [n H]. exists n.
    replace (full_calls p n.1 n.2) with
      ([time_time] ++ convert_calls p ++ take 4 (domain_calls p)
       ++ drop 4 (domain_calls p) ++ take 3 (condition_calls p)
       ++ [time_time] ++ drop 3 (condition_calls p) ++ [time_time]
       ++ simulation_calls n.1 n.2
       ++ [time_time] ++ upload_calls p ++ [time_time; time_time]); [exact H|].
    unfold full_calls, pipeline_calls.
    rewrite <- (take_drop 4 (domain_calls p)) at 3.
    rewrite <- !app_assoc. reflexivity.
Qed.
End follows_stages.

(** Whatever the world does, the calls of a run are a prefix of the calls
    of a complete run, and all of them when the run ends normally. *)
Lemma run_follows (w : world) (p : template) :
  ∃ n1 n2, follows (full_calls p n1 n2) (run p w).1 (run p w).2.
Proof.
  destruct (fo_main w p []) as (evs & r & Heq & [n1 n2] & H).
  exists n1, n2. unfold run. by rewrite Heq.
Qed.

Lemma run_prefix (w : world) (p : template) :
  ∃ n1 n2, calls_of (run p w).1 `prefix_of` full_calls p n1 n2.
Proof.
  destruct (run_follows w p) as (n1 & n2 & H).
  exists n1, n2. by eapply follows_prefix.
Qed.

Lemma prefix_omap {A B} (f : A → option B) (l1 l2 : list A) :
  l1 `prefix_of` l2 → omap f l1 `prefix_of` omap f l2.
Proof. intros [k ->]. rewrite omap_app. by apply prefix_app_r. Qed.

Lemma prefix_filter {A} (P : A → Prop) `{∀ x, Decision (P x)} (l1 l2 : list A) :
  l1 `prefix_of` l2 → filter P l1 `prefix_of` filter P l2.
Proof. intros [k ->]. rewrite filter_app. by apply prefix_app_r. Qed.

Lemma omap_full_calls {B} (f : call → option B) (p : template) (n1 n2 : nat) :
  f time_time = None →
  (∀ c, stage_of c = Some Evolve → f c = None) →
  omap f (full_calls p n1 n2) =
    omap f (convert_calls p ++ domain_calls p ++ condition_calls p)
    ++ omap f (upload_calls p).
Proof.
  intros Ht He. unfold full_calls.
  rewrite (omap_app f (pipeline_calls p n1 n2)), (omap_app f (upload_calls p)).
  rewrite omap_pipeline_calls by done.
  rewrite !(omap_cons_None f time_time _ Ht).
  change (omap f []) with (@nil B). by rewrite app_nil_r.
Qed.

Lemma omap_upload_calls_None {B} (f : call → option B) (p : template) :
  (∀ args, f (subprocess_call args) = None) → omap f (upload_calls p) = [].
Proof.
  intros Hs. apply omap_all_None. unfold upload_calls.
  apply Forall_fmap, Forall_true. intros fk. apply Hs.
Qed.

(** What an observation of single calls sees in any run, when it is blind
    to the clock, to the evolve loops and to the uploads. *)
Lemma observe_any {B} (f : call → option B) (w : world) (p : template) :
  f time_time = None →
  (∀ c, stage_of c = Some Evolve → f c = None) →
  (∀ args, f (subprocess_call args) = None) →
  omap f (calls_of (run p w).1) `prefix_of`
    omap f (convert_calls p ++ domain_calls p ++ condition_calls p).
Proof.
  intros Ht He Hs. destruct (run_prefix w p) as (n1 & n2 & Hpre).
  apply (prefix_omap f) in Hpre.
  by rewrite omap_full_calls, omap_upload_calls_None, app_nil_r in Hpre.
Qed.

(** In any run the uploads are the first so many of the eight. *)
Lemma uploads_any (w : world) (p : template) :
  uploads (run p w).1 `prefix_of` (upload_args <$> upload_list p).
Proof.
  destruct (run_prefix w p) as (n1 & n2 & Hpre).
  apply (prefix_omap args_of) in Hpre. unfold uploads.
  rewrite omap_full_calls in Hpre; [exact Hpre|done|by intros []].
Qed.

Lemma staged_app (evs1 evs2 : list call) :
  filter (λ c, is_Some (stage_of c)) (evs1 ++ evs2) =
    filter (λ c, is_Some (stage_of c)) evs1
    ++ filter (λ c, is_Some (stage_of c)) evs2.
Proof. apply filter_app. Qed.

Lemma staged_evolve (l : list call) :
  Forall (λ c, stage_of c = Some Evolve) l →
  filter (λ c, is_Some (stage_of c)) l = l.
Proof.
  induction 1 as [|c l Hc _ IH]; [done|].
  rewrite filter_cons_True by (rewrite Hc; eauto). by rewrite IH.
Qed.

Lemma staged_time (l : list call) :
  filter (λ c, is_Some (stage_of c)) (time_time :: l) =
    filter (λ c, is_Some (stage_of c)) l.
Proof. apply filter_cons_False. simpl. by intros [? ?]. Qed.

(** The staged calls of a complete run, stage after stage. *)
Lemma staged_full_calls (p : template) (n1 n2 : nat) :
  filter (λ c, is_Some (stage_of c)) (full_calls p n1 n2) =
    convert_calls p ++ domain_calls p ++ condition_calls p
    ++ simulation_calls n1 n2 ++ upload_calls p.
Proof.
  unfold full_calls, pipeline_calls.
  rewrite <- (take_drop 3 (condition_calls p)) at 3.
  repeat (rewrite staged_app || rewrite staged_time).
  rewrite (staged_evolve _ (simulation_calls_stage n1 n2)).
  rewrite <- !app_assoc. reflexivity.
Qed.

Lemma stages_full_calls (p : template) (n1 n2 : nat) :
  omap stage_of (full_calls p n1 n2) =
    replicate 3 Convert ++ replicate 8 Domain ++ replicate 8 Conditions
    ++ replicate (2 + 3 * (n1 + n2)) Evolve ++ replicate 8 Upload.
Proof.
  unfold full_calls, pipeline_calls.
  repeat (rewrite omap_app || rewrite (omap_cons_None stage_of time_time) by done).
  unfold simulation_calls. rewrite omap_app, !stages_evolve_calls.
  rewrite <- replicate_add.
  replace (1 + 3 * n1 + (1 + 3 * n2))%nat with (2 + 3 * (n1 + n2))%nat by lia.
  rewrite <- !app_assoc. reflexivity.
Qed.

(** ** The upload step *)

Lemma files_of_uploads (p : template) :
  omap file_of (upload_args <$> upload_list p) =
    input_dataset p :: derived_names p.
Proof. reflexivity. Qed.

Lemma keys_of_uploads (p : template) :
  omap key_of (upload_args <$> upload_list p) =
    "raw_elevation" :: derived_names p.
Proof. reflexivity. Qed.

(** C2, as the code has it: in a run where both variables are set and
    nothing raises, the upload command is invoked exactly eight times, once
    for each call site of lines 220-227 and in that order, under eight
    different cloud keys; the seven files named after [name_stem] are
    pairwise different, and no file is uploaded twice as soon as the raw
    input dataset is not named like one of these seven.  In any run at
    all, the uploads are the first so many of these eight. *)
Theorem upload_once_per_call_site (w w' : world) (p : template)
    (bucket dir : string) :
  benign any_code bucket dir w →
  (∃ tr,
     run p w = (tr, inr tt) ∧
     uploads tr = upload_args <$> upload_list p ∧
     length (uploads tr) = 8 ∧
     omap file_of (uploads tr) = input_dataset p :: derived_names p ∧
     NoDup (omap key_of (uploads tr)) ∧
     NoDup (derived_names p) ∧
     (input_dataset p ∉ derived_names p → NoDup (omap file_of (uploads tr)))) ∧
  uploads (run p w').1 `prefix_of` (upload_args <$> upload_list p).
Proof.
  intros Hw. split; [|apply uploads_any].
  destruct (run_benign_calls _ _ _ _ p Hw) as (tr & n1 & n2 & Hrun & Hc).
  apply uploads_benign in Hc. exists tr. rewrite Hc.
  rewrite files_of_uploads, keys_of_uploads.
  repeat split; try done.
  - apply NoDup_cons. split;
      [apply raw_elevation_not_derived|apply derived_names_NoDup].
  - apply derived_names_NoDup.
  - intros Hin. apply NoDup_cons. split; [done|apply derived_names_NoDup].
Qed.

Lemma upload_once_per_call_site_witness :
  (∃ tr,
     run example_template (example_world "bucket" "jobs/1" 0) = (tr, inr tt) ∧
     uploads tr = upload_args <$> upload_list example_template ∧
     length (uploads tr) = 8 ∧
     omap file_of (uploads tr) =
       input_dataset example_template :: derived_names example_template ∧
     NoDup (omap key_of (uploads tr)) ∧
     NoDup (derived_names example_template) ∧
     (input_dataset example_template ∉ derived_names example_template →
      NoDup (omap file_of (uploads tr)))) ∧
  uploads (run example_template failing_world).1 `prefix_of`
    (upload_args <$> upload_list example_template).
Proof.
  apply (upload_once_per_call_site _ failing_world example_template
           "bucket" "jobs/1").
  apply example_world_benign. exact I.
Defined.

(** C2 as stated fails: when the raw input dataset is named [a.asc] and
    [name_stem] is [a], the run completes and the file [a.asc] is uploaded
    twice (lines 220 and 222). *)
Lemma upload_twice_counterexample :
  (run clash_template (example_world "bucket" "jobs/1" 0)).2 = inr tt ∧
  omap file_of (uploads (run clash_template (example_world "bucket" "jobs/1" 0)).1) =
    ["a.asc"; "a_UTM.nc"; "a.asc"; "a.prj"; "a.dem"; "a.pts"; "a.msh";
     "a_fixed_wave.sww"] ∧
  ¬ NoDup (omap file_of
             (uploads (run clash_template (example_world "bucket" "jobs/1" 0)).1)).
Proof.
  assert (Hf : omap file_of
      (uploads (run clash_template (example_world "bucket" "jobs/1" 0)).1) =
    ["a.asc"; "a_UTM.nc"; "a.asc"; "a.prj"; "a.dem"; "a.pts"; "a.msh";
     "a_fixed_wave.sww"]) by (vm_compute; reflexivity).
  split; [vm_compute; reflexivity|]. split; [exact Hf|].
  rewrite Hf. intros Hnd. apply NoDup_cons in Hnd as [Hin _].
  apply Hin. rewrite !elem_of_cons. auto.
Qed.

(** C3, as the code has it: the two variables are read by every upload,
    but their values reach only the printed message; the arguments of the
    eight [cloud upload] calls are the same in any two runs of the same
    script that do not raise, whatever the values of the variables, and
    in any run at all they are the first so many of the same eight. *)
Theorem environ_only_in_message (w1 w2 w' : world) (p : template)
    (bucket1 dir1 bucket2 dir2 : string) :
  benign any_code bucket1 dir1 w1 →
  benign any_code bucket2 dir2 w2 →
  (∃ pre1 codes1 post1 pre2 codes2 post2,
     run p w1 = (pre1 ++ upload_trace p bucket1 dir1 codes1 ++ post1, inr tt) ∧
     run p w2 = (pre2 ++ upload_trace p bucket2 dir2 codes2 ++ post2, inr tt) ∧
     length codes1 = 8 ∧ length codes2 = 8 ∧
     uploads (run p w1).1 = upload_args <$> upload_list p ∧
     uploads (run p w2).1 = uploads (run p w1).1) ∧
  uploads (run p w').1 `prefix_of` (upload_args <$> upload_list p).
Proof.
  intros Hw1 Hw2. split; [|apply uploads_any].
  destruct (run_benign _ _ _ _ p Hw1)
    as (pre1 & codes1 & post1 & n1 & n2 & Hrun1 & Hlen1 & _ & Hpre1 & Hpost1).
  destruct (run_benign _ _ _ _ p Hw2)
    as (pre2 & codes2 & post2 & m1 & m2 & Hrun2 & Hlen2 & _ & Hpre2 & Hpost2).
  exists pre1, codes1, post1, pre2, codes2, post2.
  assert (H1 : uploads (run p w1).1 = upload_args <$> upload_list p).
  { rewrite Hrun1. apply (uploads_benign _ p n1 n2). cbn [fst].
    by rewrite !calls_of_app, Hpre1, Hpost1, calls_of_upload_trace. }
  assert (H2 : uploads (run p w2).1 = upload_args <$> upload_list p).
  { rewrite Hrun2. apply (uploads_benign _ p m1 m2). cbn [fst].
    by rewrite !calls_of_app, Hpre2, Hpost2, calls_of_upload_trace. }
  repeat split; try done. by rewrite H1, H2.
Qed.

Lemma environ_only_in_message_witness :
  (∃ pre1 codes1 post1 pre2 codes2 post2,
     run example_template (example_world "bucket-a" "jobs/1" 0) =
       (pre1 ++ upload_trace example_template "bucket-a" "jobs/1" codes1 ++ post1,
        inr tt) ∧
     run example_template (example_world "bucket-b" "jobs/2" 0) =
       (pre2 ++ upload_trace example_template "bucket-b" "jobs/2" codes2 ++ post2,
        inr tt) ∧
     length codes1 = 8 ∧ length codes2 = 8 ∧
     uploads (run example_template (example_world "bucket-a" "jobs/1" 0)).1 =
       upload_args <$> upload_list example_template ∧
     uploads (run example_template (example_world "bucket-b" "jobs/2" 0)).1 =
       uploads (run example_template (example_world "bucket-a" "jobs/1" 0)).1) ∧
  uploads (run example_template failing_world).1 `prefix_of`
    (upload_args <$> upload_list example_template).
Proof.
  apply (environ_only_in_message _ _ failing_world example_template
           "bucket-a" "jobs/1" "bucket-b" "jobs/2");
    apply example_world_benign; exact I.
Defined.

(** C3 as stated fails: two runs that differ only in the values of
    [STORAGE_BUCKET] and [STORAGE_BASE_KEY_PATH] hand the very same
    arguments to the upload command. *)
Lemma environ_not_in_arguments_counterexample :
  environ (example_world "bucket-a" "jobs/1" 0) ≠
    environ (example_world "bucket-b" "jobs/2" 0) ∧
  uploads (run example_template (example_world "bucket-a" "jobs/1" 0)).1 ≠ [] ∧
  uploads (run example_template (example_world "bucket-a" "jobs/1" 0)).1 =
    uploads (run example_template (example_world "bucket-b" "jobs/2" 0)).1.
Proof.
  split; [|split].
  - intros Heq.
    apply (f_equal (λ m : gmap string string, m !! "STORAGE_BUCKET")) in Heq.
    vm_compute in Heq. discriminate Heq.
  - vm_compute. discriminate.
  - vm_compute. reflexivity.
Qed.

(** ** Failures *)

(** C4: when every upload returns a non-zero code, the script still runs
    to its end without raising; each code is only printed, all eight
    uploads are attempted, once each, and no call of the run raised.
    And whatever the world does, an exception is only propagated: the call
    that raises is the last event of the run, so nothing is retried, and
    the calls made are the first so many of a complete run. *)
Theorem upload_failures_ignored (w w' : world) (p : template)
    (bucket dir : string) :
  benign (λ k, k ≠ 0%Z) bucket dir w →
  (∃ pre codes post,
     run p w = (pre ++ upload_trace p bucket dir codes ++ post, inr tt) ∧
     length codes = 8 ∧ Forall (λ k, k ≠ 0%Z) codes ∧
     uploads (run p w).1 = upload_args <$> upload_list p ∧
     quiet (run p w).1) ∧
  fail_stop w' (run p w').1 (run p w').2 ∧
  (∃ n1 n2, follows (full_calls p n1 n2) (run p w').1 (run p w').2).
Proof.
  intros Hw. split; [|split; [apply run_fail_stop|apply run_follows]].
  destruct (run_benign _ _ _ _ p Hw)
    as (pre & codes & post & n1 & n2 & Hrun & Hlen & Hcodes & Hpre & Hpost).
  exists pre, codes, post. split; [done|]. split; [done|]. split; [done|].
  split.
  - rewrite Hrun. apply (uploads_benign _ p n1 n2). cbn [fst].
    by rewrite !calls_of_app, Hpre, Hpost, calls_of_upload_trace.
  - pose proof (run_fail_stop w p) as Hfs. by rewrite Hrun in Hfs |- *.
Qed.

Lemma upload_failures_ignored_witness :
  (∃ pre codes post,
     run example_template (example_world "bucket" "jobs/1" 1) =
       (pre ++ upload_trace example_template "bucket" "jobs/1" codes ++ post,
        inr tt) ∧
     length codes = 8 ∧ Forall (λ k, k ≠ 0%Z) codes ∧
     uploads (run example_template (example_world "bucket" "jobs/1" 1)).1 =
       upload_args <$> upload_list example_template ∧
     quiet (run example_template (example_world "bucket" "jobs/1" 1)).1) ∧
  fail_stop failing_world
    (run example_template failing_world).1
    (run example_template failing_world).2 ∧
  (∃ n1 n2, follows (full_calls example_template n1 n2)
              (run example_template failing_world).1
              (run example_template failing_world).2).
Proof.
  apply (upload_failures_ignored _ _ example_template "bucket" "jobs/1").
  apply example_world_benign. discriminate.
Defined.

(** ** The order of the stages *)

(** C5: in a run that does not raise, the staged calls are, in this
    order: [nc2asc], [asc2dem], [dem2pts]; the creation and set-up of the
    domain; the initial and boundary conditions; the two evolve loops;
    the eight uploads.  Each stage is one block of the trace.  In any run
    at all the staged calls are the first so many of such a sequence. *)
Theorem stages_in_order (w w' : world) (p : template) (bucket dir : string) :
  benign any_code bucket dir w →
  (∃ tr n1 n2,
     run p w = (tr, inr tt) ∧
     staged tr =
       convert_calls p ++ domain_calls p ++ condition_calls p
       ++ simulation_calls n1 n2 ++ upload_calls p ∧
     stages tr =
       replicate 3 Convert ++ replicate 8 Domain ++ replicate 8 Conditions
       ++ replicate (2 + 3 * (n1 + n2)) Evolve ++ replicate 8 Upload) ∧
  (∃ n1 n2,
     staged (run p w').1 `prefix_of`
       convert_calls p ++ domain_calls p ++ condition_calls p
       ++ simulation_calls n1 n2 ++ upload_calls p ∧
     stages (run p w').1 `prefix_of`
       replicate 3 Convert ++ replicate 8 Domain ++ replicate 8 Conditions
       ++ replicate (2 + 3 * (n1 + n2)) Evolve ++ replicate 8 Upload).
Proof.
  intros Hw. split.
  - destruct (run_benign_calls _ _ _ _ p Hw) as (tr & n1 & n2 & Hrun & Hc).
    exists tr, n1, n2. split; [done|]. unfold staged, stages. rewrite Hc.
    split; [apply staged_full_calls|apply stages_full_calls].
  - destruct (run_prefix w' p) as (n1 & n2 & Hpre). exists n1, n2.
    unfold staged, stages. split.
    + rewrite <- (staged_full_calls p n1 n2). by apply prefix_filter.
    + rewrite <- (stages_full_calls p n1 n2). by apply prefix_omap.
Qed.

Lemma stages_in_order_witness :
  (∃ tr n1 n2,
     run example_template (example_world "bucket" "jobs/1" 0) = (tr, inr tt) ∧
     staged tr =
       convert_calls example_template ++ domain_calls example_template
       ++ condition_calls example_template
       ++ simulation_calls n1 n2 ++ upload_calls example_template ∧
     stages tr =
       replicate 3 Convert ++ replicate 8 Domain ++ replicate 8 Conditions
       ++ replicate (2 + 3 * (n1 + n2)) Evolve ++ replicate 8 Upload) ∧
  (∃ n1 n2,
     staged (run example_template failing_world).1 `prefix_of`
       convert_calls example_template ++ domain_calls example_template
       ++ condition_calls example_template
       ++ simulation_calls n1 n2 ++ upload_calls example_template ∧
     stages (run example_template failing_world).1 `prefix_of`
       replicate 3 Convert ++ replicate 8 Domain ++ replicate 8 Conditions
       ++ replicate (2 + 3 * (n1 + n2)) Evolve ++ replicate 8 Upload).
Proof.
  apply (stages_in_order _ _ example_template "bucket" "jobs/1").
  apply example_world_benign. exact I.
Defined.

(** ** Configuration handed to the library *)

(** What an observation of single calls sees in a benign run, when it is
    blind to the clock, to the evolve loops and to the uploads. *)
Lemma observe_benign {B} (f : call → option B) (tr : list event) (p : template)
    (n1 n2 : nat) :
  f time_time = None →
  (∀ c, stage_of c = Some Evolve → f c = None) →
  (∀ args, f (subprocess_call args) = None) →
  calls_of tr = pipeline_calls p n1 n2 ++ upload_calls p ++ [time_time; time_time] →
  omap f (calls_of tr) =
    omap f (convert_calls p ++ domain_calls p ++ condition_calls p).
Proof.
  intros Ht He Hs Hc. rewrite Hc.
  rewrite (omap_app f (pipeline_calls p n1 n2)), (omap_app f (upload_calls p)).
  rewrite omap_pipeline_calls by done.
  rewrite (omap_all_None f (upload_calls p)).
  - rewrite !(omap_cons_None f time_time _ Ht).
    change (omap f []) with (@nil B). rewrite app_nil_l. apply app_nil_r.
  - unfold upload_calls. apply Forall_fmap, Forall_true. intros fk. apply Hs.
Qed.

(** The literal [0.0]. *)
Lemma float_zero : PyFloat 0.0 = PyFloat 0.
Proof. f_equal. unfold Q2R. simpl. lra. Qed.

Lemma boundary_map_lookup (tag : string) (b : boundary) :
  boundary_map !! tag = Some b →
  (tag ∈ ocean_tags ∧ b = Bw) ∨ (tag ∈ other_tags ∧ b = Bs).
Proof.
  unfold boundary_map, ocean_tags, other_tags.
  rewrite !lookup_insert_Some, lookup_singleton_Some, !elem_of_cons.
  intros H. repeat (destruct H as [[<- <-]|[_ H]]; [auto 12|]).
  destruct H as [<- <-]. auto 12.
Qed.

Lemma boundary_map_ocean (tag : string) :
  tag ∈ ocean_tags → boundary_map !! tag = Some Bw.
Proof.
  unfold ocean_tags. rewrite !elem_of_cons, elem_of_nil.
  intros [->|[->|[->|[]]]]; reflexivity.
Qed.

Lemma boundary_map_other (tag : string) :
  tag ∈ other_tags → boundary_map !! tag = Some Bs.
Proof.
  unfold other_tags. rewrite !elem_of_cons, elem_of_nil.
  intros [->|[->|[->|[->|[->|[->|[->|[]]]]]]]]; reflexivity.
Qed.


(** C6: the tide of the template is the initial [stage] of the domain,
    the initial [friction] is 0.0, and the Dirichlet boundary is
    [[tide, 0, 0]] with the same tide.  In any run at all no other
    constant quantity is set and no other Dirichlet boundary is built. *)
Theorem tide_is_stage (w w' : world) (p : template) (bucket dir : string) :
  benign any_code bucket dir w →
  (∃ tr,
     run p w = (tr, inr tt) ∧
     omap quantity_of (calls_of tr) =
       [("stage", tide p); ("friction", PyFloat 0)] ∧
     omap dirichlet_of (calls_of tr) = [[tide p; PyInt 0; PyInt 0]]) ∧
  omap quantity_of (calls_of (run p w').1) `prefix_of`
    [("stage", tide p); ("friction", PyFloat 0)] ∧
  omap dirichlet_of (calls_of (run p w').1) `prefix_of`
    [[tide p; PyInt 0; PyInt 0]].
Proof.
  intros Hw.
  assert (Hq : omap quantity_of
                 (convert_calls p ++ domain_calls p ++ condition_calls p) =
               [("stage", tide p); ("friction", PyFloat 0)]).
  { simpl. by rewrite float_zero. }
  split; [|split].
  - destruct (run_benign_calls _ _ _ _ p Hw) as (tr & n1 & n2 & Hrun & Hc).
    exists tr. split; [done|]. split.
    + rewrite (observe_benign quantity_of tr p n1 n2); try done. by intros [].
    + rewrite (observe_benign dirichlet_of tr p n1 n2); try done. by intros [].
  - rewrite <- Hq. apply observe_any; try done. by intros [].
  - apply (observe_any dirichlet_of w' p); try done. by intros [].
Qed.

Lemma tide_is_stage_witness :
  (∃ tr,
     run example_template (example_world "bucket" "jobs/1" 0) = (tr, inr tt) ∧
     omap quantity_of (calls_of tr) =
       [("stage", tide example_template); ("friction", PyFloat 0)] ∧
     omap dirichlet_of (calls_of tr) =
       [[tide example_template; PyInt 0; PyInt 0]]) ∧
  omap quantity_of (calls_of (run example_template failing_world).1) `prefix_of`
    [("stage", tide example_template); ("friction", PyFloat 0)] ∧
  omap dirichlet_of (calls_of (run example_template failing_world).1) `prefix_of`
    [[tide example_template; PyInt 0; PyInt 0]].
Proof.
  apply (tide_is_stage _ _ example_template "bucket" "jobs/1").
  apply example_world_benign. exact I.
Defined.

(** C7: the one [set_boundary] call of a run gives the wave
    [Time_boundary] to exactly the three ocean tags and the transmissive
    zero-momentum boundary to each of the seven other tags; no run makes
    another [set_boundary] call. *)
Theorem wave_on_ocean_tags (w w' : world) (p : template) (bucket dir : string) :
  benign any_code bucket dir w →
  ∃ m,
    (∃ tr, run p w = (tr, inr tt) ∧ omap boundary_map_of (calls_of tr) = [m]) ∧
    omap boundary_map_of (calls_of (run p w').1) `prefix_of` [m] ∧
    (∀ tag, m !! tag = Some (Time_boundary the_wave) ↔
            tag ∈ ["ocean_wsw"; "ocean_w"; "ocean_wnw"]) ∧
    (∀ tag, tag ∈ ["land_sse"; "land_s"; "bottom"; "top"; "land_nne";
                   "land_ese"; "land_se"] →
            m !! tag = Some Transmissive_stage_zero_momentum_boundary).
Proof.
  intros Hw. exists boundary_map. split; [|split; [|split]].
  - destruct (run_benign_calls _ _ _ _ p Hw) as (tr & n1 & n2 & Hrun & Hc).
    exists tr. split; [done|].
    rewrite (observe_benign boundary_map_of tr p n1 n2); try done.
    by intros [].
  - apply (observe_any boundary_map_of w' p); try done. by intros [].
  - intros tag. split.
    + intros H. apply boundary_map_lookup in H as [[H _]|[_ H]]; [exact H|].
      discriminate H.
    + apply boundary_map_ocean.
  - apply boundary_map_other.
Qed.

Lemma wave_on_ocean_tags_witness :
  ∃ m,
    (∃ tr, run example_template (example_world "bucket" "jobs/1" 0) =
             (tr, inr tt) ∧
           omap boundary_map_of (calls_of tr) = [m]) ∧
    omap boundary_map_of (calls_of (run example_template failing_world).1)
      `prefix_of` [m] ∧
    (∀ tag, m !! tag = Some (Time_boundary the_wave) ↔
            tag ∈ ["ocean_wsw"; "ocean_w"; "ocean_wnw"]) ∧
    (∀ tag, tag ∈ ["land_sse"; "land_s"; "bottom"; "top"; "land_nne";
                   "land_ese"; "land_se"] →
            m !! tag = Some Transmissive_stage_zero_momentum_boundary).
Proof.
  apply (wave_on_ocean_tags _ _ example_template "bucket" "jobs/1").
  apply example_world_benign. exact I.
Defined.

(** C8: the [maximum_triangle_area] of the one mesh-generation call is
    [25 * base_scale]: an int for an int scale, and in any case the
    number 25 times the scale; no run generates a mesh with another
    value. *)
Theorem resolution_is_25_base_scale (w w' : world) (p : template)
    (bucket dir : string) :
  benign any_code bucket dir w →
  (∃ tr,
     run p w = (tr, inr tt) ∧
     omap maximum_triangle_area_of (calls_of tr) = [default_res p]) ∧
  omap maximum_triangle_area_of (calls_of (run p w').1) `prefix_of`
    [default_res p] ∧
  to_float (default_res p) = (25 * to_float (base_scale p))%R ∧
  (∀ z, base_scale p = PyInt z → default_res p = PyInt (25 * z)) ∧
  (∀ r, base_scale p = PyFloat r → default_res p = PyFloat (25 * r)).
Proof.
  intros Hw. split; [|split; [|split; [|split]]].
  - destruct (run_benign_calls _ _ _ _ p Hw) as (tr & n1 & n2 & Hrun & Hc).
    exists tr. split; [done|].
    rewrite (observe_benign maximum_triangle_area_of tr p n1 n2); try done.
    by intros [].
  - apply (observe_any maximum_triangle_area_of w' p); try done. by intros [].
  - unfold default_res. destruct (base_scale p) as [z|r]; simpl; [|done].
    by rewrite mult_IZR.
  - intros z Hz. unfold default_res. by rewrite Hz.
  - intros r Hr. unfold default_res. by rewrite Hr.
Qed.

Lemma resolution_is_25_base_scale_witness :
  (∃ tr,
     run example_template (example_world "bucket" "jobs/1" 0) = (tr, inr tt) ∧
     omap maximum_triangle_area_of (calls_of tr) =
       [default_res example_template]) ∧
  omap maximum_triangle_area_of
    (calls_of (run example_template failing_world).1) `prefix_of`
    [default_res example_template] ∧
  to_float (default_res example_template) =
    (25 * to_float (base_scale example_template))%R ∧
  (∀ z, base_scale example_template = PyInt z →
        default_res example_template = PyInt (25 * z)) ∧
  (∀ r, base_scale example_template = PyFloat r →
        default_res example_template = PyFloat (25 * r)).
Proof.
  apply (resolution_is_25_base_scale _ _ example_template "bucket" "jobs/1").
  apply example_world_benign. exact I.
Defined.

(** C9: [Bd] is built (one [Dirichlet_boundary([tide, 0, 0])] call) but
    given to no tag: the boundary map has exactly the ten tags, each with
    [Bs] or [Bw], and in any run the construction is the only call that
    hands [Bd] to the library. *)
Theorem dirichlet_boundary_unused (w w' : world) (p : template)
    (bucket dir : string) :
  benign any_code bucket dir w →
  (∃ tr,
     run p w = (tr, inr tt) ∧
     omap dirichlet_of (calls_of tr) = [[tide p; PyInt 0; PyInt 0]] ∧
     omap boundary_map_of (calls_of tr) = [boundary_map] ∧
     omap boundaries_of (calls_of tr) =
       [[Bd p]; [Bs]; [Bw]; (map_to_list boundary_map).*2]) ∧
  omap boundaries_of (calls_of (run p w').1) `prefix_of`
    [[Bd p]; [Bs]; [Bw]; (map_to_list boundary_map).*2] ∧
  (Bd p ∉ [Bs]) ∧ (Bd p ∉ [Bw]) ∧ (Bd p ∉ (map_to_list boundary_map).*2) ∧
  dom boundary_map = list_to_set (ocean_tags ++ other_tags) ∧
  size boundary_map = 10%nat ∧
  (∀ tag b, boundary_map !! tag = Some b → b = Bs ∨ b = Bw).
Proof.
  intros Hw.
  assert (Hvalues : ∀ tag b, boundary_map !! tag = Some b → b = Bs ∨ b = Bw).
  { intros tag b H. apply boundary_map_lookup in H as [[_ ->]|[_ ->]]; auto. }
  split.
  { destruct (run_benign_calls _ _ _ _ p Hw) as (tr & n1 & n2 & Hrun & Hc).
    exists tr. split; [done|]. split; [|split].
    - rewrite (observe_benign dirichlet_of tr p n1 n2); try done. by intros [].
    - rewrite (observe_benign boundary_map_of tr p n1 n2); try done.
      by intros [].
    - rewrite (observe_benign boundaries_of tr p n1 n2); try done.
      by intros []. }
  split.
  { apply (observe_any boundaries_of w' p); try done. by intros []. }
  split; [by intros [=]%list_elem_of_singleton|].
  split; [by intros [=]%list_elem_of_singleton|].
  split.
  { intros Hin. apply list_elem_of_fmap in Hin as ([tag b] & Hb & Hin).
    apply elem_of_map_to_list in Hin. simpl in Hb. subst b.
    apply Hvalues in Hin as [H|H]; discriminate H. }
  split.
  { apply set_eq. intros tag. rewrite elem_of_dom, elem_of_list_to_set.
    split.
    - intros [b Hb]. apply elem_of_app.
      apply boundary_map_lookup in Hb as [[H _]|[H _]]; auto.
    - intros [H|H]%elem_of_app.
      + rewrite (boundary_map_ocean tag H). eauto.
      + rewrite (boundary_map_other tag H). eauto. }
  split; [vm_compute; reflexivity|exact Hvalues].
Qed.

Lemma dirichlet_boundary_unused_witness :
  (∃ tr,
     run example_template (example_world "bucket" "jobs/1" 0) = (tr, inr tt) ∧
     omap dirichlet_of (calls_of tr) =
       [[tide example_template; PyInt 0; PyInt 0]] ∧
     omap boundary_map_of (calls_of tr) = [boundary_map] ∧
     omap boundaries_of (calls_of tr) =
       [[Bd example_template]; [Bs]; [Bw]; (map_to_list boundary_map).*2]) ∧
  omap boundaries_of (calls_of (run example_template failing_world).1)
    `prefix_of`
    [[Bd example_template]; [Bs]; [Bw]; (map_to_list boundary_map).*2] ∧
  (Bd example_template ∉ [Bs]) ∧ (Bd example_template ∉ [Bw]) ∧
  (Bd example_template ∉ (map_to_list boundary_map).*2) ∧
  dom boundary_map = list_to_set (ocean_tags ++ other_tags) ∧
  size boundary_map = 10%nat ∧
  (∀ tag b, boundary_map !! tag = Some b → b = Bs ∨ b = Bw).
Proof.
  apply (dirichlet_boundary_unused _ _ example_template "bucket" "jobs/1").
  apply example_world_benign. exact I.
Defined.

(** C10: the simulation is always named [busselton_fixed_wave], whatever
    [name_stem] is, so it writes [busselton_fixed_wave.sww]; the last
    upload sends the file [name_stem + "_fixed_wave.sww"], which is that
    file exactly when [name_stem] is [busselton].  No run names the
    simulation otherwise or uploads another file list. *)
Theorem sww_upload_name (w w' : world) (p : template) (bucket dir : string) :
  benign any_code bucket dir w →
  (∃ tr,
     run p w = (tr, inr tt) ∧
     omap name_of (calls_of tr) = ["busselton_fixed_wave"] ∧
     last (omap file_of (uploads tr)) =
       Some (name_stem p +:+ "_fixed_wave.sww")) ∧
  omap name_of (calls_of (run p w').1) `prefix_of` ["busselton_fixed_wave"] ∧
  omap file_of (uploads (run p w').1) `prefix_of`
    input_dataset p :: derived_names p ∧
  last (derived_names p) = Some (name_stem p +:+ "_fixed_wave.sww") ∧
  (name_stem p +:+ "_fixed_wave.sww" = sww_file "busselton_fixed_wave" ↔
   name_stem p = "busselton").
Proof.
  intros Hw. split; [|split; [|split; [|split]]].
  - destruct (run_benign_calls _ _ _ _ p Hw) as (tr & n1 & n2 & Hrun & Hc).
    exists tr. split; [done|]. split.
    + rewrite (observe_benign name_of tr p n1 n2); try done. by intros [].
    + by rewrite (uploads_benign tr p n1 n2 Hc).
  - apply (observe_any name_of w' p); try done. by intros [].
  - rewrite <- files_of_uploads. apply prefix_omap, uploads_any.
  - reflexivity.
  - change (sww_file "busselton_fixed_wave")
      with ("busselton" +:+ "_fixed_wave.sww").
    split.
    + apply append_inv_tail.
    + by intros ->.
Qed.

Lemma sww_upload_name_witness :
  (∃ tr,
     run example_template (example_world "bucket" "jobs/1" 0) = (tr, inr tt) ∧
     omap name_of (calls_of tr) = ["busselton_fixed_wave"] ∧
     last (omap file_of (uploads tr)) =
       Some (name_stem example_template +:+ "_fixed_wave.sww")) ∧
  omap name_of (calls_of (run example_template failing_world).1) `prefix_of`
    ["busselton_fixed_wave"] ∧
  omap file_of (uploads (run example_template failing_world).1) `prefix_of`
    input_dataset example_template :: derived_names example_template ∧
  last (derived_names example_template) =
    Some (name_stem example_template +:+ "_fixed_wave.sww") ∧
  (name_stem example_template +:+ "_fixed_wave.sww" =
     sww_file "busselton_fixed_wave" ↔
   name_stem example_template = "busselton").
Proof.
  apply (sww_upload_name _ _ example_template "bucket" "jobs/1").
  apply example_world_benign. exact I.
Defined.

(** ** Two concrete runs *)

(** Without the two variables the first upload raises [KeyError] before
    the upload command is ever invoked. *)
Example missing_environ :
  (run example_template failing_world).2 = inl (KeyError "STORAGE_BUCKET") ∧
  uploads (run example_template failing_world).1 = [].
Proof. split; vm_compute; reflexivity. Qed.

(** With them, and with failing uploads, the eight calls are made. *)
Example failing_uploads :
  (run example_template (example_world "bucket" "jobs/1" 1)).2 = inr tt ∧
  omap key_of (uploads (run example_template (example_world "bucket" "jobs/1" 1)).1) =
    ["raw_elevation"; "busselton_UTM.nc"; "busselton.asc"; "busselton.prj";
     "busselton.dem"; "busselton.pts"; "busselton.msh";
     "busselton_fixed_wave.sww"].
Proof. split; vm_compute; reflexivity. Qed.

(** * Further properties *)

(** ** The shape of the wave *)

Lemma the_wave_float (t : R) :
  the_wave (PyFloat t) =
    inr [PyFloat (20 * sin (t * PI / 600) * exp (- t / 600)); PyInt 0; PyInt 0].
Proof.
  unfold the_wave. rewrite period_600.
  change (py_mul (PyFloat t) np_pi) with (PyFloat (t * PI)).
  change (py_neg (PyFloat t)) with (PyFloat (- t)).
  rewrite !py_div_float_l by done. reflexivity.
Qed.

Lemma decay_le_1 (t : R) : (0 <= t)%R → (exp (- t / 600) <= 1)%R.
Proof.
  intros Ht. rewrite <- exp_0.
  destruct (Req_dec t 0) as [->|Hne].
  - right. f_equal. lra.
  - left. apply exp_increasing. lra.
Qed.

(** X1: from time 0 on, the stage of the wave stays within the decaying
    envelope [20*exp(-t/600)], hence within 20 metres. *)
Theorem the_wave_envelope (t : R) :
  (0 <= t)%R →
  ∃ stage,
    the_wave (PyFloat t) = inr [PyFloat stage; PyInt 0; PyInt 0] ∧
    (Rabs stage <= 20 * exp (- t / 600))%R ∧
    (20 * exp (- t / 600) <= 20)%R.
Proof.
  intros Ht. eexists. split; [apply the_wave_float|].
  pose proof (exp_pos (- t / 600)) as Hpos.
  pose proof (decay_le_1 t Ht) as Hle.
  pose proof (SIN_bound (t * PI / 600)) as [Hlo Hhi].
  split; [|lra].
  apply Rabs_le. split; nra.
Qed.

Lemma the_wave_envelope_witness :
  ∃ stage,
    the_wave (PyFloat 300) = inr [PyFloat stage; PyInt 0; PyInt 0] ∧
    (Rabs stage <= 20 * exp (- 300 / 600))%R ∧
    (20 * exp (- 300 / 600) <= 20)%R.
Proof. apply (the_wave_envelope 300). lra. Defined.


(** X3: the wave first rises and then falls: its stage is positive at
    every time strictly between 0 and 600 seconds and negative at every
    time strictly between 600 and 1200 seconds. *)
Theorem the_wave_sign (t : R) :
  ∃ stage,
    the_wave (PyFloat t) = inr [PyFloat stage; PyInt 0; PyInt 0] ∧
    ((0 < t < 600)%R → (0 < stage)%R) ∧
    ((600 < t < 1200)%R → (stage < 0)%R).
Proof.
  eexists. split; [apply the_wave_float|].
  pose proof (exp_pos (- t / 600)) as Hpos.
  pose proof PI_RGT_0 as Hpi.
  split; intros [H1 H2].
  - assert (0 < sin (t * PI / 600))%R; [|nra].
    apply sin_gt_0; [nra|]. 
    replace PI with (600 * PI / 600)%R at 2 by lra. nra.
  - assert (sin (t * PI / 600) < 0)%R; [|nra].
    apply sin_lt_0; nra.
Qed.

(** X4: at a Python 2 [int] time the decay exponent [-t/600] is a floor
    division: for every int time strictly between 0 and 600 it is [-1],
    and the value returned differs from the one at the equal float
    time. *)
Theorem the_wave_int_time (z : Z) :
  (0 < z < 600)%Z →
  the_wave (PyInt z) =
    inr [PyFloat (20 * sin (IZR z * PI / 600) * exp (-1)); PyInt 0; PyInt 0] ∧
  the_wave (PyInt z) ≠ the_wave (PyFloat (IZR z)).
Proof.
  intros Hz.
  assert (Hint : the_wave (PyInt z) =
    inr [PyFloat (20 * sin (IZR z * PI / 600) * exp (-1)); PyInt 0; PyInt 0]).
  { unfold the_wave. rewrite period_600.
    change (py_mul (PyInt z) np_pi) with (PyFloat (IZR z * PI)).
    rewrite py_div_float_l by done. cbn.
    destruct (decide (600%Z = 0%Z)) as [|_]; [lia|].
    replace ((- z) `div` 600)%Z with (-1)%Z; [reflexivity|].
    apply (Z.div_unique (- z) 600 (-1) (600 - z)); lia. }
  split; [exact Hint|].
  rewrite Hint, the_wave_float. intros [= Heq].
  assert (Ht : (0 < IZR z < 600)%R) by (split; apply IZR_lt; lia).
  pose proof PI_RGT_0 as Hpi.
  assert (Hsin : (0 < sin (IZR z * PI / 600))%R).
  { apply sin_gt_0; [nra|]. nra. }
  assert (Hexp : exp (-1) = exp (- IZR z / 600)).
  { apply (Rmult_eq_reg_l (20 * sin (IZR z * PI / 600))); [exact Heq|nra]. }
  apply exp_inv in Hexp. lra.
Qed.

Lemma the_wave_int_time_witness :
  the_wave (PyInt 300) =
    inr [PyFloat (20 * sin (IZR 300 * PI / 600) * exp (-1)); PyInt 0; PyInt 0] ∧
  the_wave (PyInt 300) ≠ the_wave (PyFloat (IZR 300)).
Proof. apply (the_wave_int_time 300). lia. Defined.

(** ** Collapsing double slashes *)

(** Induction on strings two characters at a time. *)
Lemma string_ind2 (P : string → Prop) :
  P EmptyString →
  (∀ c, P (String c EmptyString)) →
  (∀ c c' s, P s → P (String c' s) → P (String c (String c' s))) →
  ∀ s, P s.
Proof.
  intros H0 H1 H2.
  assert (H : ∀ s, P s ∧ ∀ c, P (String c s)).
  { induction s as [|c' s [IH1 IH2]]; split; auto. }
  intros s. apply H.
Qed.

Lemma replace_slashes_cons (c : ascii) (s : string) :
  replace_slashes (String c s) =
    match s with
    | String c' rest =>
        if decide (c = "/"%char ∧ c' = "/"%char)
        then String "/"%char (replace_slashes rest)
        else String c (replace_slashes s)
    | EmptyString => String c EmptyString
    end.
Proof.
  destruct s as [|c' rest].
  - by destruct c as [[] [] [] [] [] [] [] []].
  - case_decide as H.
    + by destruct H as [-> ->].
    + destruct c as [[] [] [] [] [] [] [] []]; try reflexivity.
      destruct c' as [[] [] [] [] [] [] [] []]; try reflexivity.
      by destruct H.
Qed.

Lemma replace_slashes_length (s : string) :
  String.length (replace_slashes s) ≤ String.length s.
Proof.
  induction s as [|c|c c' s IH1 IH2] using string_ind2.
  - done.
  - rewrite replace_slashes_cons. done.
  - rewrite replace_slashes_cons.
    case_decide as H; clear H; cbn [String.length] in *; lia.
Qed.

Lemma replace_slashes_shrinks (a b : string) :
  String.length (replace_slashes (a +:+ "//" +:+ b)) <
    String.length (a +:+ "//" +:+ b).
Proof.
  induction a as [|c a IH].
  - change (replace_slashes ("" +:+ "//" +:+ b))
      with (String "/"%char (replace_slashes b)).
    change (String.length ("" +:+ "//" +:+ b)) with (S (S (String.length b))).
    pose proof (replace_slashes_length b). cbn [String.length]. lia.
  - change (String c a +:+ "//" +:+ b) with (String c (a +:+ "//" +:+ b)).
    rewrite replace_slashes_cons.
    destruct (a +:+ "//" +:+ b) as [|c' rest] eqn:Heq.
    + by destruct a.
    + case_decide as H; clear H.
      * pose proof (replace_slashes_length rest). cbn [String.length]. lia.
      * cbn [String.length] in *. lia.
Qed.

(** X5: collapsing never lengthens a string, and it leaves a string as it
    is exactly when the string has no two slashes in a row. *)
Theorem replace_slashes_fixed (s : string) :
  String.length (replace_slashes s) ≤ String.length s ∧
  (replace_slashes s = s ↔ ¬ ∃ a b, s = a +:+ "//" +:+ b).
Proof.
  split; [apply replace_slashes_length|]. split.
  - intros Hfix (a & b & ->).
    pose proof (replace_slashes_shrinks a b) as Hlt.
    rewrite Hfix in Hlt. lia.
  - induction s as [|c|c c' s IH1 IH2] using string_ind2;
      [done|by rewrite replace_slashes_cons|].
    intros Hno. rewrite replace_slashes_cons. case_decide as Hc.
    + destruct Hc as [-> ->]. exfalso. apply Hno. by exists "", s.
    + f_equal. apply IH2. intros (a & b & Heq). apply Hno.
      exists (String c a), b.
      change (String c a +:+ "//" +:+ b) with (String c (a +:+ "//" +:+ b)).
      by rewrite <- Heq.
Qed.


(** ** Runs that stop at the upload step *)

Lemma cloudUpload_KeyError (w : world) (h : list event)
    (inFilePath cloudKey key : string) :
  missing_variable w = Some key →
  cloudUpload inFilePath cloudKey w h = (h, inl (KeyError key)).
Proof.
  unfold missing_variable, cloudUpload, bind, os_environ.
  destruct (environ w !! "STORAGE_BUCKET") as [b|]; [|by intros [= <-]].
  destruct (environ w !! "STORAGE_BASE_KEY_PATH") as [d|]; [done|].
  by intros [= <-].
Qed.

(** X7: [cloudUpload] reads [STORAGE_BUCKET] first and
    [STORAGE_BASE_KEY_PATH] second; when one is missing it raises the
    [KeyError] of the first missing one, and does so before anything
    else: no subprocess is started and nothing is printed, whatever the
    file and the key. *)
Theorem cloudUpload_missing_variable (w : world) (h : list event)
    (inFilePath cloudKey key : string) :
  missing_variable w = Some key →
  (environ w !! key = None) ∧
  cloudUpload inFilePath cloudKey w h = (h, inl (KeyError key)) ∧
  uploads (cloudUpload inFilePath cloudKey w h).1 = uploads h.
Proof.
  intros Hkey.
  rewrite (cloudUpload_KeyError w h _ _ key Hkey).
  split; [|done].
  unfold missing_variable in Hkey.
  destruct (environ w !! "STORAGE_BUCKET") as [b|] eqn:Hb; [|by injection Hkey as <-].
  destruct (environ w !! "STORAGE_BASE_KEY_PATH") as [d|] eqn:Hd; [done|].
  by injection Hkey as <-.
Qed.

Lemma cloudUpload_missing_variable_witness :
  (environ failing_world !! "STORAGE_BUCKET" = None) ∧
  cloudUpload "a.asc" "a.asc" failing_world [] =
    ([], inl (KeyError "STORAGE_BUCKET")) ∧
  uploads (cloudUpload "a.asc" "a.asc" failing_world []).1 = uploads [].
Proof.
  apply (cloudUpload_missing_variable failing_world [] "a.asc" "a.asc").
  reflexivity.
Defined.

Section library_only.
Context (w : world) (Hlib : library_returns w).
Implicit Types p : template.

Lemma wp_ext_lib (c : call) (Q : list event → exn + pyval → Prop) :
  (∀ v, Q [ECall c (inr v)] (inr v)) → wp (ext c) w Q.
Proof.
  intros HQ h. destruct (Hlib h c) as [v Hv].
  exists [ECall c (inr v)], (inr v). unfold ext. by rewrite Hv.
Qed.

Ltac lib_step :=
  first
    [ apply wp_bind
    | apply wp_ext_lib; intros ?
    | apply wp_time; intros ?
    | apply wp_print
    | apply wp_ret ];
  cbv beta iota.

Lemma convert_data_lib p :
  wp (convert_data p) w (λ evs r, r = inr tt ∧ calls_of evs = convert_calls p).
Proof. unfold convert_data. repeat lib_step. done. Qed.

Lemma create_domain_lib p :
  wp (create_domain p) w (λ evs r,
    r = inr tt ∧ calls_of evs = take 4 (domain_calls p)).
Proof. unfold create_domain. repeat lib_step. done. Qed.

Lemma setup_domain_lib p :
  wp setup_domain w (λ evs r,
    r = inr tt ∧ calls_of evs = drop 4 (domain_calls p)).
Proof. unfold setup_domain. repeat lib_step. done. Qed.

Lemma initial_conditions_lib p :
  wp (initial_conditions p) w (λ evs r,
    r = inr tt ∧ calls_of evs = take 3 (condition_calls p)).
Proof. unfold initial_conditions. repeat lib_step. done. Qed.

Lemma boundary_conditions_lib p :
  wp (boundary_conditions p) w (λ evs r,
    r = inr tt ∧ calls_of evs = drop 3 (condition_calls p)).
Proof. unfold boundary_conditions. repeat lib_step. done. Qed.

Lemma for_yields_lib (n : nat) :
  wp (for_yields n evolve_body) w (λ evs r,
    r = inr tt ∧
    calls_of evs = concat (replicate n [next_yield; timestepping_statistics;
                                        boundary_statistics "ocean_wnw"])).
Proof.
  induction n as [|n IH]; simpl.
  - by apply wp_ret.
  - unfold evolve_body. repeat lib_step.
    eapply wp_mono; [apply IH|]. intros evs r [-> Hc].
    split; [done|]. rewrite !calls_of_app, Hc. done.
Qed.

Lemma for_evolve_lib (yieldstep finaltime : pynum) (skip : bool) :
  wp (for_evolve yieldstep finaltime skip evolve_body) w (λ evs r,
    r = inr tt ∧ ∃ n, calls_of evs = evolve_calls yieldstep finaltime skip n).
Proof.
  unfold for_evolve. do 2 lib_step.
  intros h.
  destruct (for_yields_lib (evolve_yields w h) h) as (evs & r & Heq & -> & Hc).
  exists evs, (inr tt). split; [done|]. split; [done|].
  exists (evolve_yields w h). rewrite calls_of_app, Hc. done.
Qed.

Lemma evolve_system_lib :
  wp evolve_system w (λ evs r,
    r = inr tt ∧ ∃ n1 n2, calls_of evs = simulation_calls n1 n2).
Proof.
  unfold evolve_system. apply wp_bind.
  eapply wp_mono; [apply for_evolve_lib|]. intros evs1 r1 (-> & n1 & Hc1).
  eapply wp_mono; [apply for_evolve_lib|]. intros evs2 r2 (-> & n2 & Hc2).
  split; [done|]. exists n1, n2. rewrite calls_of_app, Hc1, Hc2.
  unfold simulation_calls. do 2 f_equal.
Qed.

Lemma timer_stats_lib (t0 t1 t2 t3 : R) :
  wp (timer_stats t0 t1 t2 t3) w (λ evs r, r = inr tt).
Proof. unfold timer_stats. repeat lib_step. done. Qed.

(** With a library that returns, the script reaches the upload step
    after the whole pipeline; what the upload step does decides the
    rest. *)
Lemma main_reaches_upload p (U : list event → exn + unit → Prop) :
  wp (upload_results p) w U →
  wp (main p) w (λ tr r,
    ∃ pre up n1 n2,
      calls_of pre = pipeline_calls p n1 n2 ∧
      ((∃ x, U up (inl x) ∧ tr = pre ++ up ∧ r = inl x) ∨
       (U up (inr tt) ∧ ∃ post, tr = pre ++ up ++ post ∧ r = inr tt))).
Proof.
  intros HU. unfold main. do 2 lib_step.
  apply wp_bind. eapply wp_mono; [apply (convert_data_lib p)|].
  intros e1 ? [-> H1].
  apply wp_bind. eapply wp_mono; [apply (create_domain_lib p)|].
  intros e2 ? [-> H2].
  apply wp_bind. eapply wp_mono; [apply (setup_domain_lib p)|].
  intros e3 ? [-> H3].
  apply wp_bind. eapply wp_mono; [apply (initial_conditions_lib p)|].
  intros e4 ? [-> H4]. do 2 lib_step.
  apply wp_bind. eapply wp_mono; [apply (boundary_conditions_lib p)|].
  intros e5 ? [-> H5]. do 2 lib_step.
  apply wp_bind. eapply wp_mono; [apply evolve_system_lib|].
  intros e6 ? (-> & n1 & n2 & H6). do 2 lib_step.
  assert (Hpre : ∀ t t0 t1 t2,
    calls_of ([ECall time_time (inr (VNum (PyFloat t)))] ++ e1 ++ e2 ++ e3 ++ e4
              ++ [ECall time_time (inr (VNum (PyFloat t0)))] ++ e5
              ++ [ECall time_time (inr (VNum (PyFloat t1)))] ++ e6
              ++ [ECall time_time (inr (VNum (PyFloat t2)))]) =
    pipeline_calls p n1 n2).
  { intros. repeat (rewrite calls_of_cons || rewrite calls_of_app).
    rewrite H1, H2, H3, H4, H5, H6. unfold pipeline_calls.
    rewrite <- (take_drop 4 (domain_calls p)) at 3.
    change (calls_of []) with (@nil call).
    repeat (rewrite <- app_assoc; simpl). reflexivity. }
  apply wp_bind. eapply wp_mono; [exact HU|].
  intros e7 [x|[]] H7.
  - eexists _, e7, n1, n2. split; [apply (Hpre t t0 t1 t2)|].
    left. exists x. split; [done|]. split; [|done].
    repeat (rewrite <- app_assoc; simpl). reflexivity.
  - eapply wp_mono; [apply timer_stats_lib|]. intros e8 ? ->.
    eexists _, e7, n1, n2. split; [apply (Hpre t t0 t1 t2)|].
    right. split; [done|]. exists e8. split; [|done].
    repeat (rewrite <- app_assoc; simpl). reflexivity.
Qed.
End library_only.

Lemma uploads_pipeline_calls (p : template) (n1 n2 : nat) :
  omap args_of (pipeline_calls p n1 n2) = [].
Proof. rewrite omap_pipeline_calls; [reflexivity|done|by intros []]. Qed.

Lemma upload_results_missing (w : world) (p : template) (key : string) :
  missing_variable w = Some key →
  wp (upload_results p) w (λ up r,
    up = [EPrint [VStr "Uploading result files"]] ∧ r = inl (KeyError key)).
Proof.
  intros Hkey. unfold upload_results.
  apply wp_bind, wp_print. cbv beta iota. apply wp_bind. intros h.
  exists [], (inl (KeyError key)).
  rewrite (cloudUpload_KeyError w h _ _ key Hkey).
  by rewrite app_nil_r.
Qed.

(** X8: when one of the two variables is missing and the library does
    not raise, the script still runs the whole pipeline (conversions,
    mesh, conditions and both evolve loops); only then, at the first
    upload, it ends with the [KeyError] of the missing variable, and the
    upload command is never invoked. *)
Theorem missing_variable_found_late (w : world) (p : template) (key : string) :
  library_returns w →
  missing_variable w = Some key →
  ∃ pre n1 n2,
    run p w =
      (pre ++ [EPrint [VStr "Uploading result files"]], inl (KeyError key)) ∧
    calls_of pre = pipeline_calls p n1 n2 ∧
    uploads (run p w).1 = [].
Proof.
  intros Hlib Hkey.
  destruct (main_reaches_upload w Hlib p _ (upload_results_missing w p key Hkey) [])
    as (tr & r & Hrun & pre & up & n1 & n2 & Hpre & H).
  destruct H as [(x & [-> [= <-]] & -> & ->)|[[_ [=]] _]].
  exists pre, n1, n2. unfold run. rewrite Hrun. split; [done|]. split; [done|].
  cbn [fst]. unfold uploads.
  rewrite !calls_of_app, Hpre, !omap_app, uploads_pipeline_calls. reflexivity.
Qed.

Lemma missing_variable_found_late_witness :
  ∃ pre n1 n2,
    run example_template failing_world =
      (pre ++ [EPrint [VStr "Uploading result files"]],
       inl (KeyError "STORAGE_BUCKET")) ∧
    calls_of pre = pipeline_calls example_template n1 n2 ∧
    uploads (run example_template failing_world).1 = [].
Proof.
  apply (missing_variable_found_late failing_world example_template).
  - intros h c. by exists VNone.
  - reflexivity.
Defined.

Lemma upload_results_no_command (w : world) (p : template)
    (bucket dir : string) (e : exn) :
  environ w !! "STORAGE_BUCKET" = Some bucket →
  environ w !! "STORAGE_BASE_KEY_PATH" = Some dir →
  (∀ h args, subprocess w h args = inl e) →
  wp (upload_results p) w (λ up r,
    up = [EPrint [VStr "Uploading result files"];
          ECall (subprocess_call (upload_args (input_dataset p, "raw_elevation")))
                (inl e)] ∧
    r = inl e).
Proof.
  intros Hb Hd He. unfold upload_results.
  apply wp_bind, wp_print. cbv beta iota. apply wp_bind. intros h.
  exists [ECall (subprocess_call (upload_args (input_dataset p, "raw_elevation")))
                (inl e)], (inl e).
  split; [|done].
  unfold cloudUpload, bind, os_environ, subprocess_run.
  by rewrite Hb, Hd, He.
Qed.

(** X9: when the upload command cannot be started ([subprocess.call]
    raises), the script, after the whole pipeline, attempts only the
    first upload (the raw dataset) and ends with that exception; the
    seven other uploads are not attempted.  (A non-zero return code, by
    contrast, stops nothing.) *)
Theorem missing_command_stops_uploads (w : world) (p : template)
    (bucket dir : string) (e : exn) :
  library_returns w →
  environ w !! "STORAGE_BUCKET" = Some bucket →
  environ w !! "STORAGE_BASE_KEY_PATH" = Some dir →
  (∀ h args, subprocess w h args = inl e) →
  ∃ pre n1 n2,
    run p w =
      (pre ++ [EPrint [VStr "Uploading result files"];
               ECall (subprocess_call
                        (upload_args (input_dataset p, "raw_elevation")))
                     (inl e)],
       inl e) ∧
    calls_of pre = pipeline_calls p n1 n2 ∧
    uploads (run p w).1 = [upload_args (input_dataset p, "raw_elevation")].
Proof.
  intros Hlib Hb Hd He.
  destruct (main_reaches_upload w Hlib p _
              (upload_results_no_command w p bucket dir e Hb Hd He) [])
    as (tr & r & Hrun & pre & up & n1 & n2 & Hpre & H).
  destruct H as [(x & [-> [= <-]] & -> & ->)|[[_ [=]] _]].
  exists pre, n1, n2. unfold run. rewrite Hrun. split; [done|]. split; [done|].
  cbn [fst]. unfold uploads.
  rewrite !calls_of_app, Hpre, !omap_app, uploads_pipeline_calls. reflexivity.
Qed.

Lemma missing_command_stops_uploads_witness :
  ∃ pre n1 n2,
    run example_template no_command_world =
      (pre ++ [EPrint [VStr "Uploading result files"];
               ECall (subprocess_call
                        (upload_args (input_dataset example_template,
                                      "raw_elevation")))
                     (inl (OSError "No such file or directory"))],
       inl (OSError "No such file or directory")) ∧
    calls_of pre = pipeline_calls example_template n1 n2 ∧
    uploads (run example_template no_command_world).1 =
      [upload_args (input_dataset example_template, "raw_elevation")].
Proof.
  apply (missing_command_stops_uploads no_command_world example_template
           "bucket" "jobs/1").
  - intros h c. by exists VNone.
  - reflexivity.
  - reflexivity.
  - reflexivity.
Defined.

(** X10: in any run at all, the upload command is invoked only after the
    whole pipeline has run: if there is an upload in the trace, then the
    calls of the complete pipeline, through the end of both evolve loops,
    come first. *)
Theorem upload_only_after_pipeline (w : world) (p : template) :
  uploads (run p w).1 ≠ [] →
  ∃ n1 n2, pipeline_calls p n1 n2 `prefix_of` calls_of (run p w).1.
Proof.
  intros Hup. destruct (run_prefix w p) as (n1 & n2 & Hpre).
  exists n1, n2.
  destruct (prefix_weak_total (calls_of (run p w).1) (pipeline_calls p n1 n2)
              (full_calls p n1 n2) Hpre) as [Hshort|Hlong].
  - unfold full_calls. by apply prefix_app_r.
  - exfalso. apply Hup. apply (prefix_omap args_of) in Hshort.
    rewrite uploads_pipeline_calls in Hshort. by apply prefix_nil_inv.
  - exact Hlong.
Qed.

Lemma upload_only_after_pipeline_witness :
  ∃ n1 n2,
    pipeline_calls example_template n1 n2 `prefix_of`
      calls_of (run example_template (example_world "bucket" "jobs/1" 0)).1.
Proof.
  apply (upload_only_after_pipeline (example_world "bucket" "jobs/1" 0)
           example_template).
  vm_compute. discriminate.
Defined.

(** ** The tags of the mesh and of the boundary conditions *)

Lemma boundary_tags_lookup (tag : string) (l : list Z) :
  boundary_tags !! tag = Some l →
  (tag, l) ∈ [("land_sse", [0%Z]); ("land_s", [1%Z]); ("bottom", [2%Z]);
              ("ocean_wsw", [3%Z]); ("ocean_w", [4%Z]); ("ocean_wnw", [5%Z]);
              ("top", [6%Z]); ("land_nne", [7%Z]); ("land_ese", [8%Z]);
              ("land_se", [9%Z])].
Proof.
  unfold boundary_tags.
  rewrite !lookup_insert_Some, lookup_singleton_Some, !elem_of_cons.
  intros H. repeat (destruct H as [[<- <-]|[_ H]]; [auto 12|]).
  destruct H as [<- <-]. auto 12.
Qed.

Lemma boundary_tags_dom : dom boundary_tags = dom boundary_map.
Proof.
  apply set_eq. intros tag. rewrite !elem_of_dom. split.
  - intros [l Hl]. apply boundary_tags_lookup in Hl.
    rewrite !elem_of_cons, elem_of_nil in Hl.
    repeat (destruct Hl as [[= -> _]|Hl]; [by eexists|]). done.
  - intros [b Hb]. apply boundary_map_lookup in Hb as [[H _]|[H _]].
    + unfold ocean_tags in H. rewrite !elem_of_cons, elem_of_nil in H.
      repeat (destruct H as [->|H]; [by eexists|]). done.
    + unfold other_tags in H. rewrite !elem_of_cons, elem_of_nil in H.
      repeat (destruct H as [->|H]; [by eexists|]). done.
Qed.

Lemma boundary_tags_segments (i : Z) :
  (0 ≤ i < 10)%Z ↔ ∃ tag l, boundary_tags !! tag = Some l ∧ i ∈ l.
Proof.
  split.
  - intros Hi.
    assert (Hcases : (i = 0 ∨ i = 1 ∨ i = 2 ∨ i = 3 ∨ i = 4 ∨ i = 5 ∨ i = 6
                      ∨ i = 7 ∨ i = 8 ∨ i = 9)%Z) by lia.
    destruct Hcases as [->|[->|[->|[->|[->|[->|[->|[->|[->| ->]]]]]]]]];
      [exists "land_sse", [0%Z]|exists "land_s", [1%Z]|exists "bottom", [2%Z]
      |exists "ocean_wsw", [3%Z]|exists "ocean_w", [4%Z]
      |exists "ocean_wnw", [5%Z]|exists "top", [6%Z]|exists "land_nne", [7%Z]
      |exists "land_ese", [8%Z]|exists "land_se", [9%Z]];
      (split; [reflexivity|apply list_elem_of_here]).
  - intros (tag & l & Hl & Hi). apply boundary_tags_lookup in Hl.
    rewrite !elem_of_cons, elem_of_nil in Hl.
    repeat (destruct Hl as [[= -> ->]|Hl];
      [apply list_elem_of_singleton in Hi; lia|]). done.
Qed.

Lemma boundary_tags_unique (i : Z) (tag1 tag2 : string) (l1 l2 : list Z) :
  boundary_tags !! tag1 = Some l1 → i ∈ l1 →
  boundary_tags !! tag2 = Some l2 → i ∈ l2 →
  tag1 = tag2.
Proof.
  intros H1 Hi1 H2 Hi2.
  apply boundary_tags_lookup in H1. apply boundary_tags_lookup in H2.
  rewrite !elem_of_cons, elem_of_nil in H1.
  repeat (destruct H1 as [[= -> ->]|H1];
    [apply list_elem_of_singleton in Hi1; subst i;
     rewrite !elem_of_cons, elem_of_nil in H2;
     repeat (destruct H2 as [[= -> ->]|H2];
       [first [reflexivity
              |apply list_elem_of_singleton in Hi2; discriminate Hi2]|]);
     done|]).
  done.
Qed.

(** What an observation sees at most once, it sees with that value. *)
Lemma observed_once {B} (f : call → option B) (w : world) (p : template)
    (x y : B) :
  f time_time = None →
  (∀ c, stage_of c = Some Evolve → f c = None) →
  (∀ args, f (subprocess_call args) = None) →
  omap f (convert_calls p ++ domain_calls p ++ condition_calls p) = [y] →
  x ∈ omap f (calls_of (run p w).1) →
  x = y.
Proof.
  intros Ht He Hs Hy Hx.
  destruct (observe_any f w p Ht He Hs) as [k Hk].
  rewrite Hy in Hk. apply list_elem_of_singleton. rewrite Hk.
  apply elem_of_app. by left.
Qed.

(** X11: in any run, the mesh is generated with tags that fit the
    boundary conditions set later: the tags declared for the bounding
    polygon are exactly the tags given a boundary by [set_boundary], and
    each of the segments of the polygon (as many as it has vertices)
    carries exactly one tag. *)
Theorem tags_fit_boundaries (w : world) (p : template) :
  ∀ polygon tags,
    polygon ∈ omap bounding_polygon_of (calls_of (run p w).1) →
    tags ∈ omap boundary_tags_of (calls_of (run p w).1) →
    (∀ m, m ∈ omap boundary_map_of (calls_of (run p w).1) → dom m = dom tags) ∧
    (∀ i : Z, (0 ≤ i < Z.of_nat (length polygon))%Z ↔
              ∃ tag l, tags !! tag = Some l ∧ i ∈ l) ∧
    (∀ i tag1 tag2 l1 l2,
       tags !! tag1 = Some l1 → i ∈ l1 → tags !! tag2 = Some l2 → i ∈ l2 →
       tag1 = tag2).
Proof.
  intros polygon tags Hpoly Htags.
  apply (observed_once bounding_polygon_of w p _ busselton_extent) in Hpoly;
    [|done|by intros []|done|reflexivity].
  apply (observed_once boundary_tags_of w p _ boundary_tags) in Htags;
    [|done|by intros []|done|reflexivity].
  subst polygon tags. split; [|split].
  - intros m Hm.
    apply (observed_once boundary_map_of w p _ boundary_map) in Hm;
      [|done|by intros []|done|reflexivity].
    subst m. symmetry. apply boundary_tags_dom.
  - apply boundary_tags_segments.
  - apply boundary_tags_unique.
Qed.

Lemma tags_fit_boundaries_witness :
  (∀ m, m ∈ omap boundary_map_of
              (calls_of (run example_template
                           (example_world "bucket" "jobs/1" 0)).1) →
        dom m = dom boundary_tags) ∧
  (∀ i : Z, (0 ≤ i < Z.of_nat (length busselton_extent))%Z ↔
            ∃ tag l, boundary_tags !! tag = Some l ∧ i ∈ l) ∧
  (∀ i tag1 tag2 l1 l2,
     boundary_tags !! tag1 = Some l1 → i ∈ l1 →
     boundary_tags !! tag2 = Some l2 → i ∈ l2 →
     tag1 = tag2).
Proof.
  apply (tags_fit_boundaries (example_world "bucket" "jobs/1" 0)
           example_template busselton_extent boundary_tags).
  - vm_compute. apply list_elem_of_here.
  - assert (H : omap boundary_tags_of
                  (calls_of (run example_template
                               (example_world "bucket" "jobs/1" 0)).1) =
                [boundary_tags]) by (vm_compute; reflexivity).
    rewrite H. apply list_elem_of_here.
Defined.

(** ** A failure of the library *)

Lemma upload_calls_stage (p : template) :
  Forall (λ c, stage_of c = Some Upload ∨ stage_of c = None)
    (upload_calls p ++ [time_time; time_time]).
Proof.
  apply Forall_app. split.
  - unfold upload_calls. apply Forall_fmap, Forall_true. intros fk. by left.
  - repeat constructor; by right.
Qed.

(** X12: when a call into the library (a conversion, the mesh generation,
    a set-up call or the solver) raises, in whatever world, the run ends
    there with that very exception and the upload command has not been
    invoked: nothing of a failed simulation is uploaded. *)
Theorem library_failure_uploads_nothing (w : world) (p : template)
    (evs : list event) (c : call) (x : exn) (s : stage) :
  (run p w).1 = evs ++ [ECall c (inl x)] →
  stage_of c = Some s → s ≠ Upload →
  (run p w).2 = inl x ∧ uploads (run p w).1 = [].
Proof.
  intros Htr Hs Hne. split.
  - pose proof (run_fail_stop w p) as Hfs. rewrite Htr in Hfs.
    destruct (run p w).2 as [x'|[]]; simpl in Hfs.
    + destruct Hfs as [(evs' & c' & Heq & _)|(key & _ & _ & Hq)].
      * apply app_inj_tail in Heq as [_ [= _ ->]]. done.
      * apply Forall_app in Hq as [_ Hq]. by inversion Hq.
    + apply Forall_app in Hfs as [_ Hq]. by inversion Hq.
  - destruct (run_prefix w p) as (n1 & n2 & Hpre).
    destruct (prefix_weak_total (calls_of (run p w).1) (pipeline_calls p n1 n2)
                (full_calls p n1 n2) Hpre) as [Hshort|[l' Hl']].
    + unfold full_calls. by apply prefix_app_r.
    + apply (prefix_omap args_of) in Hshort.
      rewrite uploads_pipeline_calls in Hshort. by apply prefix_nil_inv.
    + destruct Hpre as [k Hk]. unfold uploads. rewrite Hl', omap_app.
      rewrite uploads_pipeline_calls. simpl.
      destruct l' as [|c0 l0] using rev_ind; [done|exfalso].
      clear IHl0.
      assert (Hc : c0 = c).
      { rewrite Htr, calls_of_app in Hl'. change (calls_of [ECall c (inl x)])
          with [c] in Hl'. rewrite (assoc_L (++)) in Hl'.
        by apply app_inj_tail in Hl' as [_ ->]. }
      subst c0. rewrite Hl' in Hk. unfold full_calls in Hk.
      rewrite <- !(assoc_L (++)) in Hk. apply app_inv_head in Hk.
      pose proof (upload_calls_stage p) as Hst. rewrite Hk in Hst.
      apply Forall_app in Hst as [_ Hst]. apply Forall_app in Hst as [Hc _].
      apply Forall_inv in Hc. cbv beta in Hc.
      rewrite Hs in Hc. destruct Hc as [[= ->]|[=]]. done.
Qed.

Lemma library_failure_uploads_nothing_witness :
  (run example_template mesh_failure_world).2 =
    inl (LibraryError "mesh generation failed") ∧
  uploads (run example_template mesh_failure_world).1 = [].
Proof.
  apply (library_failure_uploads_nothing mesh_failure_world example_template
           [ECall time_time (inr (VNum (PyFloat 0)));
            ECall (nc2asc "elevation.nc" "busselton" 50) (inr VNone);
            ECall (asc2dem "busselton.asc" false true) (inr VNone);
            ECall (dem2pts "busselton.dem" false true) (inr VNone)]
           (create_domain_from_regions busselton_extent boundary_tags
              (PyInt 500000) "busselton.msh" false true)
           (LibraryError "mesh generation failed") Domain).
  - vm_compute. reflexivity.
  - reflexivity.
  - discriminate.
Defined.
